(** * WeUnion realtime core: connection admission, session registry,
      message routing and read receipts

    Shallow embedding of [src/server/socket/socketHandler.js] together with
    the tables of [src/database/init.sql] that its queries touch.

    Conventions of the embedding.
    - Identifiers are the integers of the SERIAL columns ([Z]); a socket id
      is a [string]; [Date.now()] and the store's clock are [Z]
      (milliseconds).
    - The three [Map]s of the handler are [gmap]s; [io.sockets.sockets] and
      the adapter's rooms are [gmap]s as well.
    - A handler body is cut where the source awaits the session query of the
      middleware, because eviction happens before that query and
      registration after it: the two halves are separate steps of the
      transition system and other steps may run in between.  The remaining
      handlers are run to completion.
    - A query is a function of the tables.  The statements of
      [handleSendMessage] raise as the store does: when a parameter does not
      bind (an integer outside the range of an INTEGER column, a text with
      a NUL character), when the message type does not fit VARCHAR(20), and
      when the new row breaks the primary key or a REFERENCES constraint;
      in the last case the value drawn from the SERIAL sequence is not
      given back.  Strings are sequences of characters.
    - What the handler sends is appended to a log, each entry with the
      connections the adapter delivers it to at that moment. *)

From stdpp Require Import gmap strings list fin_maps pretty.

Local Open Scope Z_scope.
Local Open Scope string_scope.
Local Open Scope list_scope.

(** ** Admission attempt records *)

Module Attempts.

Record attempt := Attempt {
  count : Z;
  lastAttempt : Z;
  blocked : bool
}.

Definition MAX_ATTEMPTS : Z := 3.
Definition BLOCK_DURATION : Z := 10000.
Definition ATTEMPT_WINDOW : Z := 5000.

(** [connectionAttempts.get(userId) || { count: 0, lastAttempt: 0, blocked: false }] *)
Definition get_attempts (ca : gmap Z attempt) (userId : Z) : attempt :=
  default (Attempt 0 0 false) (ca !! userId).

(** Outcome of the rate-limit part of the middleware. *)
Inductive verdict := Pass | TooMany.

(** Lines 26-56 of the middleware: the block test, the expiry of a block,
    the window counter, and the write-back of the record. *)
Definition rate_limit (ca : gmap Z attempt) (userId now : Z)
  : verdict * gmap Z attempt :=
  let attempts := get_attempts ca userId in
  if blocked attempts && bool_decide (now - lastAttempt attempts < BLOCK_DURATION)
  then (TooMany, ca)
  else
    let attempts :=
      if blocked attempts && bool_decide (now - lastAttempt attempts >= BLOCK_DURATION)
      then Attempt 0 (lastAttempt attempts) false
      else attempts in
    if bool_decide (now - lastAttempt attempts < ATTEMPT_WINDOW) then
      let attempts := Attempt (count attempts + 1) (lastAttempt attempts) (blocked attempts) in
      if bool_decide (count attempts > MAX_ATTEMPTS) then
        (TooMany, <[userId := Attempt (count attempts) now true]> ca)
      else
        (Pass, <[userId := Attempt (count attempts) now (blocked attempts)]> ca)
    else
      (Pass, <[userId := Attempt 1 now (blocked attempts)]> ca).

(** The start of the connection handler: a record that exists has its
    count and block cleared. *)
Definition reset_attempts (ca : gmap Z attempt) (userId : Z) : gmap Z attempt :=
  match ca !! userId with
  | Some attempts => <[userId := Attempt 0 (lastAttempt attempts) false]> ca
  | None => ca
  end.

(** The periodic clean-up: records idle for more than twice the block
    duration are dropped. *)
Definition cleanup (ca : gmap Z attempt) (now : Z) : gmap Z attempt :=
  filter (λ kv, ¬ (now - lastAttempt kv.2 > BLOCK_DURATION * 2)) ca.

End Attempts.

(** ** The relational store *)

Module Store.

Record user_row := UserRow {
  u_id : Z;
  u_username : string;
  u_display_name : string;
  u_avatar_url : option string;
  u_status : string
}.

Record contact_row := ContactRow {
  c_user_id : Z;
  c_contact_id : Z;
  c_status : string
}.

Record group_member_row := GroupMemberRow {
  gm_group_id : Z;
  gm_user_id : Z
}.

Record conversation_row := ConversationRow {
  conv_id : Z;
  conv_group_id : option Z;
  conv_updated_at : Z
}.

Record participant_row := ParticipantRow {
  cp_conversation_id : Z;
  cp_user_id : Z
}.

Record message_row := MessageRow {
  m_id : Z;
  m_conversation_id : Z;
  m_sender_id : Z;
  m_content : string;
  m_message_type : string;
  m_reply_to : option Z;
  m_created_at : Z
}.

Record read_row := ReadRow {
  r_message_id : Z;
  r_user_id : Z;
  r_read_at : Z
}.

Record session_row := SessionRow {
  s_user_id : Z;
  s_token_hash : string;
  s_expires_at : Z
}.

Record database := Database {
  users : list user_row;
  contacts : list contact_row;
  group_members : list group_member_row;
  conversations : list conversation_row;
  conversation_participants : list participant_row;
  messages : list message_row;
  message_reads : list read_row;
  user_sessions : list session_row;
  messages_id_seq : Z;          (* next value of the SERIAL of messages *)
  db_now : Z                    (* NOW() / CURRENT_TIMESTAMP *)
}.

Definition with_users (f : list user_row → list user_row) (d : database) : database :=
  Database (f (users d)) (contacts d) (group_members d) (conversations d)
    (conversation_participants d) (messages d) (message_reads d)
    (user_sessions d) (messages_id_seq d) (db_now d).

Definition with_conversations (f : list conversation_row → list conversation_row)
    (d : database) : database :=
  Database (users d) (contacts d) (group_members d) (f (conversations d))
    (conversation_participants d) (messages d) (message_reads d)
    (user_sessions d) (messages_id_seq d) (db_now d).

Definition add_message (m : message_row) (d : database) : database :=
  Database (users d) (contacts d) (group_members d) (conversations d)
    (conversation_participants d) (messages d ++ [m]) (message_reads d)
    (user_sessions d) (messages_id_seq d + 1) (db_now d).

Definition add_read (r : read_row) (d : database) : database :=
  Database (users d) (contacts d) (group_members d) (conversations d)
    (conversation_participants d) (messages d) (message_reads d ++ [r])
    (user_sessions d) (messages_id_seq d) (db_now d).

(** [a LEFT JOIN b ON on a b]: every left row is kept; one without a
    partner is paired with NULL. *)
Definition left_join {A B} (on : A → B → bool) (l : list A) (r : list B)
  : list (A * option B) :=
  a ← l;
  match filter (λ b, on a b = true) r with
  | [] => [(a, None)]
  | bs => (λ b, (a, Some b)) <$> bs
  end.

(** A comparison with a NULL column is not true. *)
Definition col_eq {B} (col : B → Z) (ob : option B) (v : Z) : bool :=
  match ob with
  | Some b => bool_decide (col b = v)
  | None => false
  end.

(** SELECT DISTINCT on a column of integers, first occurrences kept. *)
Definition distinct (l : list Z) : list Z := remove_dups l.

(** The session query of the middleware:
    users LEFT JOIN user_sessions, the token matching or no session at all,
    the session not expired. *)
Definition session_ok (d : database) (token : string) (os : option session_row) : bool :=
  match os with
  | Some s => bool_decide (s_token_hash s = token) && bool_decide (s_expires_at s > db_now d)
  | None => true
  end.

Definition select_user_session (d : database) (userId : Z) (token : string)
  : list (user_row * option session_row) :=
  filter (λ row, session_ok d token row.2 = true)
    (left_join (λ u s, bool_decide (u_id u = s_user_id s))
       (filter (λ u, u_id u = userId) (users d)) (user_sessions d)).

(** conversations LEFT JOIN conversation_participants LEFT JOIN
    group_members, as both the access check and the room enumeration
    write it. *)
Definition conversations_joined (d : database)
  : list (conversation_row * option participant_row * option group_member_row) :=
  left_join (λ ccp gm, bool_decide (conv_group_id ccp.1 = Some (gm_group_id gm)))
    (left_join (λ c cp, bool_decide (conv_id c = cp_conversation_id cp))
       (conversations d) (conversation_participants d))
    (group_members d).

(** The range of an INTEGER column.  A parameter bound to such a column
    that lies outside it makes the statement raise before it runs. *)
Definition int4 (z : Z) : bool :=
  bool_decide (-2147483648 <= z ∧ z <= 2147483647)%Z.

(** A text parameter binds when it holds no NUL character. *)
Definition text (v : string) : bool :=
  forallb (λ a, negb (bool_decide (a = Ascii.zero))) (String.list_ascii_of_string v).

(** The assignment of a text to a VARCHAR(n) column: characters beyond the
    n-th are cut when they are all spaces, and make the statement raise
    otherwise. *)
Definition varchar (n : nat) (v : string) : option string :=
  if forallb (λ a, bool_decide (a = Ascii.Space)) (drop n (String.list_ascii_of_string v))
  then Some (String.string_of_list_ascii (take n (String.list_ascii_of_string v)))
  else None.

(** The rows of the access check of [handleSendMessage], for parameters
    that bind. *)
Definition select_access (d : database) (conversationId userId : Z) : list Z :=
  (λ row, conv_id row.1.1) <$>
  filter (λ row,
            conv_id row.1.1 = conversationId ∧
            (col_eq cp_user_id row.1.2 userId || col_eq gm_user_id row.2 userId) = true)
    (conversations_joined d).

(** The access check as the pool runs it: [$1] and [$2] are bound as
    INTEGER, then the rows are selected.  [None] when it raises. *)
Definition access_check (d : database) (conversationId userId : Z) : option (list Z) :=
  if int4 conversationId && int4 userId
  then Some (select_access d conversationId userId)
  else None.

(** The room enumeration of [joinUserConversations]. *)
Definition select_user_conversations (d : database) (userId : Z) : list Z :=
  distinct ((λ row, conv_id row.1.1) <$>
    filter (λ row,
              (col_eq cp_user_id row.1.2 userId || col_eq gm_user_id row.2 userId) = true)
      (conversations_joined d)).

Definition user_exists (d : database) (userId : Z) : bool :=
  bool_decide (userId ∈ u_id <$> users d).

Definition conversation_exists (d : database) (conversationId : Z) : bool :=
  bool_decide (conversationId ∈ conv_id <$> conversations d).

Definition message_exists (d : database) (messageId : Z) : bool :=
  bool_decide (messageId ∈ m_id <$> messages d).

(** [nextval('messages_id_seq')]: the value drawn is not given back when
    the statement that drew it fails. *)
Definition nextval (d : database) : database :=
  Database (users d) (contacts d) (group_members d) (conversations d)
    (conversation_participants d) (messages d) (message_reads d)
    (user_sessions d) (messages_id_seq d + 1) (db_now d).

(** The INSERT of [handleSendMessage] gets to run: its parameters bind, the
    message type fits its column and the sequence has a value left. *)
Definition insert_runs (d : database) (conversationId senderId : Z)
    (content messageType : string) (replyTo : option Z) : bool :=
  int4 conversationId && int4 senderId && from_option int4 true replyTo &&
  text content && text messageType &&
  bool_decide (is_Some (varchar 20 messageType)) &&
  int4 (messages_id_seq d).

(** The row of the INSERT: the id is the value of the sequence, the
    message type is stored as VARCHAR(20). *)
Definition new_row (d : database) (conversationId senderId : Z)
    (content messageType : string) (replyTo : option Z) : message_row :=
  MessageRow (messages_id_seq d) conversationId senderId content
    (default messageType (varchar 20 messageType)) replyTo (db_now d).

(** The constraints of the table on a new row: the primary key, and the
    three REFERENCES, the one of reply_to being checked with the row in
    place. *)
Definition constraints_hold (d : database) (m : message_row) : bool :=
  negb (message_exists d (m_id m)) &&
  conversation_exists d (m_conversation_id m) && user_exists d (m_sender_id m) &&
  from_option (message_exists (add_message m d)) true (m_reply_to m).

(** INSERT INTO messages ... RETURNING id, created_at: the returned pair,
    or [None] when the statement raises, and the store it leaves. *)
Definition insert_message (d : database) (conversationId senderId : Z)
    (content messageType : string) (replyTo : option Z)
  : option (Z * Z) * database :=
  if insert_runs d conversationId senderId content messageType replyTo then
    let m := new_row d conversationId senderId content messageType replyTo in
    if constraints_hold d m
    then (Some (m_id m, m_created_at m), add_message m d)
    else (None, nextval d)
  else (None, d).

(** SELECT username, display_name, avatar_url FROM users WHERE id = $1 *)
Definition select_sender (d : database) (userId : Z) : list user_row :=
  filter (λ u, u_id u = userId) (users d).

(** UPDATE conversations SET updated_at = CURRENT_TIMESTAMP WHERE id = $1 *)
Definition touch_conversation (d : database) (conversationId : Z) : database :=
  with_conversations
    (fmap (λ c, if bool_decide (conv_id c = conversationId)
                then ConversationRow (conv_id c) (conv_group_id c) (db_now d)
                else c)) d.

Definition read_marked (d : database) (messageId userId : Z) : bool :=
  bool_decide ((messageId, userId) ∈ (λ r, (r_message_id r, r_user_id r)) <$> message_reads d).

(** INSERT INTO message_reads ... ON CONFLICT (message_id, user_id) DO
    NOTHING.  [None] when a REFERENCES constraint of the table is broken. *)
Definition insert_read (d : database) (messageId userId : Z) : option database :=
  if message_exists d messageId && user_exists d userId then
    if read_marked d messageId userId then Some d
    else Some (add_read (ReadRow messageId userId (db_now d)) d)
  else None.

(** UPDATE users SET status = $1 WHERE id = $2 AND status != $1 *)
Definition update_status (d : database) (status : string) (userId : Z) : database :=
  with_users
    (fmap (λ u, if bool_decide (u_id u = userId) && negb (bool_decide (u_status u = status))
                then UserRow (u_id u) (u_username u) (u_display_name u) (u_avatar_url u) status
                else u)) d.

(** The accepted contacts of a user, from either side of the relation. *)
Definition select_contacts (d : database) (userId : Z) : list Z :=
  distinct ((λ c, if bool_decide (c_user_id c = userId) then c_contact_id c else c_user_id c) <$>
    filter (λ c, (c_user_id c = userId ∨ c_contact_id c = userId) ∧ c_status c = "accepted")
      (contacts d)).

Definition status_of (d : database) (userId : Z) : option string :=
  u_status <$> head (filter (λ u, u_id u = userId) (users d)).

End Store.

(** ** The socket layer and the handler state *)

Module Realtime.
Import Attempts Store.

(** What the middleware stores on an admitted socket. *)
Record socket := Socket {
  userId : Z;
  username : string
}.

(** Payloads of the inbound events.  A field the client left out is
    [None]; [rd_messageIds] is [None] as well when the field is not an
    array. *)
Record send_data := SendData {
  sd_conversationId : option Z;
  sd_content : option string;
  sd_messageType : option string;
  sd_replyTo : option Z
}.

Record read_data := ReadData {
  rd_conversationId : option Z;
  rd_messageIds : option (list Z)
}.

Record message_data := MessageData {
  md_id : Z;
  md_conversationId : Z;
  md_senderId : Z;
  md_sender_username : string;
  md_sender_displayName : string;
  md_sender_avatarUrl : option string;
  md_content : string;
  md_messageType : string;
  md_replyTo : option Z;
  md_createdAt : Z
}.

Inductive event :=
| error (message : string)
| new_message (data : message_data)
| messages_read (userId : Z) (messageIds : list Z) (conversationId : Z)
| user_status_change (userId : Z) (status : string).

(** [socket.emit], [io.to(room).emit] and [socket.to(room).emit]. *)
Inductive target :=
| ToSocket (sid : string)
| ToRoom (room : string)
| ToRoomExcept (room : string) (sid : string).

Inductive entry :=
| Emit (to : target) (recipients : list string) (e : event)
| ForcedClose (sid : string).

Record world := World {
  connectedUsers : gmap Z string;             (* userId -> socketId *)
  userSockets : gmap string (Z * string);     (* socketId -> user info *)
  connectionAttempts : gmap Z attempt;
  sockets : gmap string socket;               (* io.sockets.sockets *)
  rooms : gmap string (gset string);          (* adapter: room -> socket ids *)
  awaiting : gmap string (Z * string * string); (* middleware runs suspended at the session query *)
  store : database;
  log : list entry
}.

Definition set_connectedUsers (f : gmap Z string → gmap Z string) (w : world) : world :=
  World (f (connectedUsers w)) (userSockets w) (connectionAttempts w) (sockets w)
    (rooms w) (awaiting w) (store w) (log w).

Definition set_userSockets (f : gmap string (Z * string) → gmap string (Z * string))
    (w : world) : world :=
  World (connectedUsers w) (f (userSockets w)) (connectionAttempts w) (sockets w)
    (rooms w) (awaiting w) (store w) (log w).

Definition set_connectionAttempts (f : gmap Z attempt → gmap Z attempt) (w : world) : world :=
  World (connectedUsers w) (userSockets w) (f (connectionAttempts w)) (sockets w)
    (rooms w) (awaiting w) (store w) (log w).

Definition set_sockets (f : gmap string socket → gmap string socket) (w : world) : world :=
  World (connectedUsers w) (userSockets w) (connectionAttempts w) (f (sockets w))
    (rooms w) (awaiting w) (store w) (log w).

Definition set_rooms (f : gmap string (gset string) → gmap string (gset string))
    (w : world) : world :=
  World (connectedUsers w) (userSockets w) (connectionAttempts w) (sockets w)
    (f (rooms w)) (awaiting w) (store w) (log w).

Definition set_awaiting
    (f : gmap string (Z * string * string) → gmap string (Z * string * string))
    (w : world) : world :=
  World (connectedUsers w) (userSockets w) (connectionAttempts w) (sockets w)
    (rooms w) (f (awaiting w)) (store w) (log w).

Definition set_store (f : database → database) (w : world) : world :=
  World (connectedUsers w) (userSockets w) (connectionAttempts w) (sockets w)
    (rooms w) (awaiting w) (f (store w)) (log w).

Definition set_log (f : list entry → list entry) (w : world) : world :=
  World (connectedUsers w) (userSockets w) (connectionAttempts w) (sockets w)
    (rooms w) (awaiting w) (store w) (f (log w)).

Definition initial (d : database) : world := World ∅ ∅ ∅ ∅ ∅ ∅ d [].

(** *** The adapter *)

Definition members (w : world) (room : string) : gset string :=
  default ∅ (rooms w !! room).

Definition recipients (w : world) (t : target) : list string :=
  match t with
  | ToSocket sid => [sid]
  | ToRoom room => elements (members w room)
  | ToRoomExcept room sid => elements (members w room ∖ {[sid]})
  end.

Definition emit (t : target) (e : event) (w : world) : world :=
  set_log (λ l, l ++ [Emit t (recipients w t) e]) w.

Definition join (sid room : string) (w : world) : world :=
  set_rooms (λ r, <[room := {[sid]} ∪ members w room]> r) w.

Definition leave (sid room : string) (w : world) : world :=
  set_rooms (λ r, <[room := members w room ∖ {[sid]}]> r) w.

Definition leave_all (sid : string) (w : world) : world :=
  set_rooms (fmap (λ s : gset string, s ∖ {[sid]})) w.

Definition conversation_room (conversationId : Z) : string :=
  "conversation_" +:+ pretty conversationId.

Definition user_room (userId : Z) : string :=
  "user_" +:+ pretty userId.

(** *** Values as [Array.prototype.includes] compares them *)

Inductive js_value :=
| JNum (n : Z)
| JStr (s : string).

Definition same_value_zero (a b : js_value) : bool :=
  match a, b with
  | JNum x, JNum y => bool_decide (x = y)
  | JStr x, JStr y => bool_decide (x = y)
  | _, _ => false
  end.

(** A non-empty string is truthy. *)
Definition truthy (s : string) : bool := negb (bool_decide (s = "")).

(** *** Presence *)

(** [broadcastUserStatus]: every accepted contact that [connectedUsers]
    knows is told. *)
Definition broadcastUserStatus (userId : Z) (status : string) (w : world) : world :=
  foldl (λ w contact_id,
           match connectedUsers w !! contact_id with
           | Some contactSocketId =>
               if truthy contactSocketId
               then emit (ToRoom contactSocketId) (user_status_change userId status) w
               else w
           | None => w
           end)
    w (select_contacts (store w) userId).

(** [Array.from(connectedUsers.values()).includes(socket.userId)] *)
Definition hasOtherConnections (w : world) (userId : Z) : bool :=
  existsb (λ v, same_value_zero (JStr v) (JNum userId))
    ((map_to_list (connectedUsers w)).*2).

(** The 'disconnect' listener of a connection. *)
Definition on_disconnect (sid : string) (s : socket) (w : world) : world :=
  let w := set_connectedUsers (delete (userId s)) w in
  let w := set_userSockets (delete sid) w in
  if hasOtherConnections w (userId s) then w
  else
    let w := set_store (λ d, update_status d "offline" (userId s)) w in
    broadcastUserStatus (userId s) "offline" w.

(** The socket leaves the server (the transport closed, or the server
    closed it): it is dropped from [io.sockets.sockets] and from every room,
    then its 'disconnect' listener runs. *)
Definition close_socket (sid : string) (w : world) : world :=
  match sockets w !! sid with
  | Some s => on_disconnect sid s (leave_all sid (set_sockets (delete sid) w))
  | None => w
  end.

(** [existingSocket.disconnect(true)] *)
Definition disconnect_forced (sid : string) (w : world) : world :=
  close_socket sid (set_log (λ l, l ++ [ForcedClose sid]) w).


(** *** Handlers that may throw

    A computation over the handler state that either returns or throws;
    what it did before throwing stays done (every statement of the store
    commits on its own). *)

Definition handler (A : Type) : Type := world → option A * world.

Definition h_ret {A} (a : A) : handler A := λ w, (Some a, w).

Definition h_bind {A B} (m : handler A) (k : A → handler B) : handler B :=
  λ w, match m w with
       | (Some a, w') => k a w'
       | (None, w') => (None, w')
       end.

Definition throw {A} : handler A := λ w, (None, w).

Definition act (f : world → world) : handler unit := λ w, (Some (), f w).

Definition query {A} (q : database → A) : handler A := λ w, (Some (q (store w)), w).

(** A statement that changes the store and returns a value, or raises. *)
Definition statement {A} (q : database → option (database * A)) : handler A :=
  λ w, match q (store w) with
       | Some (d, a) => (Some a, set_store (λ _, d) w)
       | None => (None, w)
       end.

(** A query that may raise. *)
Definition try_query {A} (q : database → option A) : handler A :=
  λ w, (q (store w), w).

(** A statement that returns a value or raises, and leaves a store in
    both cases. *)
Definition execute {A} (q : database → option A * database) : handler A :=
  λ w, match q (store w) with
       | (r, d) => (r, set_store (λ _, d) w)
       end.

Notation "x <~ m ; k" := (h_bind m (λ x, k))
  (at level 100, m at next level, right associativity).
Notation "m ;;; k" := (h_bind m (λ _, k))
  (at level 100, right associativity).

Fixpoint for_each {A} (f : A → handler unit) (l : list A) : handler unit :=
  match l with
  | [] => h_ret ()
  | x :: l' => f x ;;; for_each f l'
  end.

(** [rows[0].field]: reading a field of the first row throws when there is
    no row. *)
Definition first_row {A} (rows : list A) : handler A :=
  match rows with
  | r :: _ => h_ret r
  | [] => throw
  end.

Definition required_message : string := "Conversation ID and content are required".
Definition denied_message : string := "Access denied to this conversation".
Definition failed_message : string := "Failed to send message".

(** [handleSendMessage(socket, data)] *)
Definition handleSendMessage (sid : string) (s : socket) (data : send_data)
  : handler unit :=
  let messageType := default "text" (sd_messageType data) in
  let replyTo := sd_replyTo data in
  match sd_conversationId data, sd_content data with
  | Some conversationId, Some content =>
      if bool_decide (conversationId = 0) || bool_decide (content = "") then
        act (emit (ToSocket sid) (error required_message))
      else
        accessCheck <~ try_query (λ d, access_check d conversationId (userId s));
        if bool_decide (length accessCheck = 0%nat) then
          act (emit (ToSocket sid) (error denied_message))
        else
          message <~ execute (λ d, insert_message d conversationId (userId s)
                                     content messageType replyTo);
          senderResult <~ query (λ d, select_sender d (userId s));
          sender <~ first_row senderResult;
          let messageData :=
            MessageData message.1 conversationId (userId s)
              (u_username sender) (u_display_name sender) (u_avatar_url sender)
              content messageType replyTo message.2 in
          act (emit (ToRoom (conversation_room conversationId)) (new_message messageData)) ;;;
          act (set_store (λ d, touch_conversation d conversationId))
  | _, _ => act (emit (ToSocket sid) (error required_message))
  end.

(** The 'send_message' listener: a throw is reported to the sender. *)
Definition on_send_message (sid : string) (s : socket) (data : send_data)
    (w : world) : world :=
  match handleSendMessage sid s data w with
  | (Some _, w') => w'
  | (None, w') => emit (ToSocket sid) (error failed_message) w'
  end.

(** [handleMarkMessagesRead(socket, data)] *)
Definition handleMarkMessagesRead (sid : string) (s : socket) (data : read_data)
  : handler unit :=
  match rd_conversationId data, rd_messageIds data with
  | Some conversationId, Some messageIds =>
      if bool_decide (conversationId = 0) then h_ret ()
      else
        for_each (λ messageId,
                    statement (λ d, (λ d', (d', ())) <$> insert_read d messageId (userId s)))
          messageIds ;;;
        act (emit (ToRoomExcept (conversation_room conversationId) sid)
               (messages_read (userId s) messageIds conversationId))
  | _, _ => h_ret ()
  end.

(** The 'mark_messages_read' listener: a throw is only logged. *)
Definition on_mark_messages_read (sid : string) (s : socket) (data : read_data)
    (w : world) : world :=
  (handleMarkMessagesRead sid s data w).2.

(** [joinUserConversations(socket)] *)
Definition joinUserConversations (sid : string) (s : socket) (w : world) : world :=
  foldl (λ w conversationId, join sid (conversation_room conversationId) w)
    w (select_user_conversations (store w) (userId s)).

(** The server accepts the socket (it enters [io.sockets.sockets] and the
    room of its own id) and the 'connection' handler runs. *)
Definition on_connection (sid : string) (s : socket) (w : world) : world :=
  let w := join sid sid (set_sockets (<[sid := s]>) w) in
  let w := set_connectionAttempts (λ ca, reset_attempts ca (userId s)) w in
  let w := set_connectedUsers (<[userId s := sid]>) w in
  let w := set_userSockets (<[sid := (userId s, username s)]>) w in
  let w := set_store (λ d, update_status d "online" (userId s)) w in
  let w := broadcastUserStatus (userId s) "online" w in
  let w := join sid (user_room (userId s)) w in
  joinUserConversations sid s w.

(** *** Admission *)

Inductive next :=
| Refused (message : string)      (* next(new Error(message)) *)
| Suspended                       (* waiting for the session query *)
| Accepted.                       (* next() *)

Definition token_required : string := "Authentication token required".
Definition auth_failed : string := "Authentication failed".
Definition too_many : string :=
  "Too many connection attempts. Please wait before reconnecting.".
Definition invalid_token : string := "Invalid or expired token".

Section Middleware.

(** [jwt.verify(token, process.env.JWT_SECRET)]: the decoded
    [(userId, username)], or [None] when it throws. *)
Variable jwt_verify : string → option (Z * string).

(** The eviction of lines 58-68. *)
Definition evict_existing (sid : string) (userId : Z) (w : world) : world :=
  match connectedUsers w !! userId with
  | Some existingSocketId =>
      if truthy existingSocketId && negb (bool_decide (existingSocketId = sid)) then
        let w :=
          match sockets w !! existingSocketId with
          | Some _ => disconnect_forced existingSocketId w
          | None => w
          end in
        let w := set_connectedUsers (delete userId) w in
        set_userSockets (delete existingSocketId) w
      else w
  | None => w
  end.

(** The middleware up to the session query. *)
Definition authenticate (sid : string) (token : option string) (now : Z)
    (w : world) : next * world :=
  match token with
  | None => (Refused token_required, w)
  | Some token =>
      if negb (truthy token) then (Refused token_required, w)
      else
        match jwt_verify token with
        | None => (Refused auth_failed, w)
        | Some (userId, username) =>
            match rate_limit (connectionAttempts w) userId now with
            | (TooMany, ca) => (Refused too_many, set_connectionAttempts (λ _, ca) w)
            | (Pass, ca) =>
                let w := set_connectionAttempts (λ _, ca) w in
                let w := evict_existing sid userId w in
                (Suspended, set_awaiting (<[sid := (userId, username, token)]>) w)
            end
        end
  end.

(** The middleware from the answer of the session query on; an admitted
    socket is connected at once. *)
Definition session_reply (sid : string) (w : world) : next * world :=
  match awaiting w !! sid with
  | Some (userId, username, token) =>
      let w := set_awaiting (delete sid) w in
      if bool_decide (length (select_user_session (store w) userId token) = 0%nat)
      then (Refused invalid_token, w)
      else (Accepted, on_connection sid (Socket userId username) w)
  | None => (Suspended, w)
  end.

(** *** The transition system *)

Inductive input :=
| Handshake (sid : string) (token : option string) (now : Z)
| SessionReply (sid : string)
| SendMessage (sid : string) (data : send_data)
| MarkMessagesRead (sid : string) (data : read_data)
| JoinConversation (sid : string) (conversationId : Z)
| LeaveConversation (sid : string) (conversationId : Z)
| Closed (sid : string)
| Cleanup (now : Z).

Definition with_socket (sid : string) (f : socket → world → world) (w : world) : world :=
  match sockets w !! sid with
  | Some s => f s w
  | None => w
  end.

Definition step (w : world) (i : input) : world :=
  match i with
  | Handshake sid token now => (authenticate sid token now w).2
  | SessionReply sid => (session_reply sid w).2
  | SendMessage sid data => with_socket sid (λ s, on_send_message sid s data) w
  | MarkMessagesRead sid data => with_socket sid (λ s, on_mark_messages_read sid s data) w
  | JoinConversation sid conversationId =>
      with_socket sid (λ _, join sid (conversation_room conversationId)) w
  | LeaveConversation sid conversationId =>
      with_socket sid (λ _, leave sid (conversation_room conversationId)) w
  | Closed sid => close_socket sid w
  | Cleanup now => set_connectionAttempts (λ ca, cleanup ca now) w
  end.

Definition run (w : world) (trace : list input) : world := foldl step w trace.

End Middleware.

End Realtime.

(** ** Notions the properties are stated with *)

Module Notions.
Import Attempts Store Realtime.

(** The sending user is a participant (direct conversation) or a group
    member (group conversation) of the conversation with that id. *)
Definition member_of (d : database) (conversationId userId : Z) : Prop :=
  ∃ c, c ∈ conversations d ∧ conv_id c = conversationId ∧
    ((∃ cp, cp ∈ conversation_participants d ∧
            cp_conversation_id cp = conv_id c ∧ cp_user_id cp = userId) ∨
     (∃ gm, gm ∈ group_members d ∧
            conv_group_id c = Some (gm_group_id gm) ∧ gm_user_id gm = userId)).

(** The read markers of a (message, user) pair. *)
Definition read_markers (d : database) (messageId userId : Z) : list read_row :=
  filter (λ r, r_message_id r = messageId ∧ r_user_id r = userId) (message_reads d).

(** The (message, user) pairs of the read markers: the UNIQUE constraint
    of the table says this list has no duplicates. *)
Definition read_keys (d : database) : list (Z * Z) :=
  (λ r, (r_message_id r, r_user_id r)) <$> message_reads d.

(** The event carries a conversation id and a content, as the first test
    of [handleSendMessage] asks. *)
Definition complete (data : send_data) : bool :=
  match sd_conversationId data, sd_content data with
  | Some conversationId, Some content =>
      negb (bool_decide (conversationId = 0)) && negb (bool_decide (content = ""))
  | _, _ => false
  end.

(** What reaches each connection: one delivery per recipient of an
    emission. *)
Definition deliveries (l : list entry) : list (string * event) :=
  e ← l;
  match e with
  | Emit _ rs ev => (λ r, (r, ev)) <$> rs
  | ForcedClose _ => []
  end.

(** The users that [userSockets] records for more than one connection
    violate the single-session rule. *)
Definition single_session (w : world) : Prop :=
  ∀ s1 s2 u n1 n2,
    userSockets w !! s1 = Some (u, n1) →
    userSockets w !! s2 = Some (u, n2) → s1 = s2.

(** The attempt record of a user is absent, or not blocked with a count
    that is not negative. *)
Definition unblocked (ca : gmap Z attempt) (userId : Z) : Prop :=
  match ca !! userId with
  | Some a => blocked a = false ∧ (0 <= count a)%Z
  | None => True
  end.

(** The state of a record during a burst: either it counts at least [k]
    attempts, the last one at [t], or it is blocked since one of the
    times of the burst. *)
Definition hot (T : Z → Prop) (k t : Z) (oa : option attempt) : Prop :=
  ∃ a, oa = Some a ∧
    ((blocked a = false ∧ k ≤ count a ∧ lastAttempt a = t) ∨
     (blocked a = true ∧ T (lastAttempt a)))%Z.

(** The credential an attempt presents, when it passes verification:
    a token is there and [jwt_verify] decodes it. *)
Definition credential (jwt_verify : string → option (Z * string))
    (token : option string) : option (Z * string) :=
  match token with
  | Some t => if truthy t then jwt_verify t else None
  | None => None
  end.

(** The message a send_message event persists, and the payload emitted
    for it: the payload carries the message type as the client gave it. *)
Definition row_of (s : socket) (data : send_data) (conversationId : Z)
    (content : string) (d : database) : message_row :=
  new_row d conversationId (userId s) content
    (default "text" (sd_messageType data)) (sd_replyTo data).

Definition payload_of (sender : user_row) (data : send_data) (row : message_row)
  : message_data :=
  MessageData (m_id row) (m_conversation_id row) (m_sender_id row)
    (u_username sender) (u_display_name sender) (u_avatar_url sender)
    (m_content row) (default "text" (sd_messageType data)) (m_reply_to row)
    (m_created_at row).

(** The INSERT of a send_message event returns a row: it runs and the
    constraints of the table hold. *)
Definition accepted (s : socket) (data : send_data) (conversationId : Z)
    (content : string) (d : database) : bool :=
  insert_runs d conversationId (userId s) content
    (default "text" (sd_messageType data)) (sd_replyTo data) &&
  constraints_hold d (row_of s data conversationId content d).

(** One upsert of a read marker, and the upserts of a list of ids in
    order, on a store that accepts them. *)
Definition mark_read (userId : Z) (d : database) (messageId : Z) : database :=
  if read_marked d messageId userId then d
  else add_read (ReadRow messageId userId (db_now d)) d.

Definition mark_all (userId : Z) (d : database) (messageIds : list Z) : database :=
  foldl (mark_read userId) d messageIds.

(** The registry is coherent: a connection recorded in [userSockets] is
    the one [connectedUsers] gives for its user, a connected socket is
    recorded under its own user, and no connection has the empty id. *)
Definition coherent (w : world) : Prop :=
  (∀ sid u n, userSockets w !! sid = Some (u, n) → connectedUsers w !! u = Some sid) ∧
  (∀ sid s, sockets w !! sid = Some s →
            userSockets w !! sid = Some (userId s, username s)) ∧
  userSockets w !! "" = None.

(** Requests served one at a time: the session query of a connection is
    answered before anything else happens. *)
Inductive request :=
| Connect (sid : string) (token : option string) (now : Z)
| Send (sid : string) (data : send_data)
| Mark (sid : string) (data : read_data)
| Join (sid : string) (conversationId : Z)
| Leave (sid : string) (conversationId : Z)
| Close (sid : string)
| Sweep (now : Z).

Definition expand (r : request) : list input :=
  match r with
  | Connect sid token now => [Handshake sid token now; SessionReply sid]
  | Send sid data => [SendMessage sid data]
  | Mark sid data => [MarkMessagesRead sid data]
  | Join sid conversationId => [JoinConversation sid conversationId]
  | Leave sid conversationId => [LeaveConversation sid conversationId]
  | Close sid => [Closed sid]
  | Sweep now => [Cleanup now]
  end.

(** Socket ids are never empty. *)
Definition named (r : request) : Prop :=
  match r with
  | Connect sid _ _ => sid ≠ ""
  | _ => True
  end.

(** A step that leaves the registry, the connected sockets and the
    suspended middleware runs as they are. *)
Definition same_registry (w w' : world) : Prop :=
  connectedUsers w' = connectedUsers w ∧ userSockets w' = userSockets w ∧
  sockets w' = sockets w ∧ awaiting w' = awaiting w.

End Notions.

(** ** A concrete deployment used by the examples *)

Module Demo.
Import Attempts Store Realtime Notions.

Definition verify (t : string) : option (Z * string) :=
  if bool_decide (t = "alice-token") then Some (1, "alice")
  else if bool_decide (t = "alice-old-token") then Some (1, "alice")
  else if bool_decide (t = "bob-token") then Some (2, "bob")
  else if bool_decide (t = "carol-token") then Some (3, "carol")
  else None.

(** alice (1) and bob (2) are accepted contacts and share conversation 42;
    carol (3) takes part in nothing.  "alice-old-token" still decodes to
    alice but has no session row any more. *)
Definition db : database :=
  Database
    [UserRow 1 "alice" "Alice" None "offline";
     UserRow 2 "bob" "Bob" None "offline";
     UserRow 3 "carol" "Carol" None "offline"]
    [ContactRow 1 2 "accepted"]
    []
    [ConversationRow 42 None 0]
    [ParticipantRow 42 1; ParticipantRow 42 2]
    [MessageRow 7 42 1 "hi" "text" None 400]
    []
    [SessionRow 1 "alice-token" 1000; SessionRow 2 "bob-token" 1000]
    8 500.

Definition alice : option string := Some "alice-token".
Definition bob : option string := Some "bob-token".
Definition carol : option string := Some "carol-token".

(** bob connects; then two connections of alice are both past the
    eviction step before either session query answers. *)
Definition overlapping : list input :=
  [Handshake "b1" bob 99000; SessionReply "b1";
   Handshake "s1" alice 100000; Handshake "s2" alice 100001;
   SessionReply "s1"; SessionReply "s2"].

Definition two_tabs : world := run verify (initial db) overlapping.

(** Three connections of alice one second apart, each connected before the
    next one starts. *)
Definition spaced : list input :=
  [Handshake "s1" alice 100000; SessionReply "s1";
   Handshake "s2" alice 101000; SessionReply "s2";
   Handshake "s3" alice 102000; SessionReply "s3"].

(** Three handshakes of alice one second apart, none answered yet. *)
Definition burst : list input :=
  [Handshake "s1" alice 100000; Handshake "s2" alice 101000;
   Handshake "s3" alice 102000].

(** alice and bob connected, and a third connection "x1" of carol joined to
    the room of conversation 42 by a 'join_conversation' event. *)
Definition three_in_room : world :=
  run verify (initial db)
    [Handshake "a1" alice 100000; SessionReply "a1";
     Handshake "b1" bob 100500; SessionReply "b1";
     Handshake "x1" carol 100700; SessionReply "x1";
     JoinConversation "x1" 42].

End Demo.

(** ** The session statements of the REST login and logout

    [src/server/routes/auth.js] writes the rows of [user_sessions] that the
    session query of the socket middleware reads. *)

Module Auth.
Import Store.

Definition with_sessions (f : list session_row → list session_row)
    (d : database) : database :=
  Database (users d) (contacts d) (group_members d) (conversations d)
    (conversation_participants d) (messages d) (message_reads d)
    (f (user_sessions d)) (messages_id_seq d) (db_now d).

(** DELETE FROM user_sessions WHERE user_id = $1 AND expires_at < NOW() *)
Definition delete_expired_sessions (d : database) (userId : Z) : database :=
  with_sessions
    (filter (λ s, ¬ (s_user_id s = userId ∧ s_expires_at s < db_now d))) d.

(** INSERT INTO user_sessions (user_id, token_hash, expires_at)
    VALUES ($1, $2, $3).  [None] when the user row is missing. *)
Definition insert_session (d : database) (userId : Z) (token : string)
    (expires : Z) : option database :=
  if user_exists d userId
  then Some (with_sessions (λ l, l ++ [SessionRow userId token expires]) d)
  else None.

(** UPDATE users SET status = $1 WHERE id = $2 *)
Definition set_status (d : database) (status : string) (userId : Z) : database :=
  with_users
    (fmap (λ u, if bool_decide (u_id u = userId)
                then UserRow (u_id u) (u_username u) (u_display_name u) (u_avatar_url u) status
                else u)) d.

(** The store statements of POST /login once the password is checked:
    expired sessions of the user are deleted, the new token is stored, the
    status is set to online. *)
Definition login_statements (d : database) (userId : Z) (token : string)
    (expires : Z) : option database :=
  d' ← insert_session (delete_expired_sessions d userId) userId token expires;
  Some (set_status d' "online" userId).

(** DELETE FROM user_sessions WHERE user_id = $1 AND token_hash = $2 *)
Definition delete_session (d : database) (userId : Z) (token : string) : database :=
  with_sessions
    (filter (λ s, ¬ (s_user_id s = userId ∧ s_token_hash s = token))) d.

(** The store statements of POST /logout. *)
Definition logout_statements (d : database) (userId : Z) (token : string) : database :=
  set_status (delete_session d userId token) "offline" userId.

End Auth.

(** ** Further notions *)

Module Facts.
Import Attempts Store Realtime Notions.

(** [c] is an accepted contact of [u], from either side of the row. *)
Definition accepted_contact (d : database) (u c : Z) : Prop :=
  ∃ row, row ∈ contacts d ∧ c_status row = "accepted" ∧
    ((c_user_id row = u ∧ c_contact_id row = c) ∨
     (c_contact_id row = u ∧ c_user_id row = c)).

(** The emission [broadcastUserStatus] makes for one contact, if any. *)
Definition notice (w : world) (userId : Z) (status : string) (contact_id : Z)
  : option entry :=
  match connectedUsers w !! contact_id with
  | Some contactSocketId =>
      if truthy contactSocketId
      then Some (Emit (ToRoom contactSocketId) (recipients w (ToRoom contactSocketId))
                   (user_status_change userId status))
      else None
  | None => None
  end.

(** The shape of every attempt record the handler ever stores: the count
    of an unblocked record lies between 0 and [MAX_ATTEMPTS], and a blocked
    record counts [MAX_ATTEMPTS + 1]. *)
Definition sane (a : attempt) : Prop :=
  if blocked a then count a = MAX_ATTEMPTS + 1
  else (0 <= count a ∧ count a <= MAX_ATTEMPTS)%Z.

(** The socket handler leaves the membership, contact and session tables
    and the clock alone, keeps the user ids and the conversation ids, and
    only appends to the messages and to the read markers. *)
Definition store_grows (d d' : database) : Prop :=
  contacts d' = contacts d ∧
  group_members d' = group_members d ∧
  conversation_participants d' = conversation_participants d ∧
  user_sessions d' = user_sessions d ∧
  u_id <$> users d' = u_id <$> users d ∧
  (λ c, (conv_id c, conv_group_id c)) <$> conversations d'
    = (λ c, (conv_id c, conv_group_id c)) <$> conversations d ∧
  db_now d' = db_now d ∧
  messages d `prefix_of` messages d' ∧
  message_reads d `prefix_of` message_reads d'.

(** The user has a session row with another token. *)
Definition other_session (d : database) (userId : Z) (token : string) : Prop :=
  ∃ s, s ∈ user_sessions d ∧ s_user_id s = userId ∧ s_token_hash s ≠ token.

End Facts.

(** ** Frame lemmas: what presence and disconnection leave alone *)

(** Closed goals are settled by running the model. *)
Ltac evaluate := vm_compute; reflexivity.

Module Frames.
Import Attempts Store Realtime Notions.

Lemma set_log_set_log (f g : list entry → list entry) (w : world) :
  set_log f (set_log g w) = set_log (λ l, f (g l)) w.
Proof. by destruct w. Qed.

(** Telling the contacts only appends to the log. *)
Lemma broadcast_only_logs (u : Z) (status : string) (w : world) :
  ∃ l, broadcastUserStatus u status w = set_log (λ _, log w ++ l) w.
Proof.
  unfold broadcastUserStatus.
  generalize (select_contacts (store w) u) as cs.
  intros cs. revert w. induction cs as [|c cs IH]; intros w.
  - exists []. rewrite app_nil_r. by destruct w.
  - cbn [foldl].
    destruct (connectedUsers w !! c) as [sid|] eqn:Hc; [|apply IH].
    destruct (truthy sid); [|apply IH].
    destruct (IH (emit (ToRoom sid) (user_status_change u status) w)) as [l Hl].
    exists (Emit (ToRoom sid) (recipients w (ToRoom sid)) (user_status_change u status) :: l).
    rewrite Hl. destruct w; cbn. by rewrite <- app_assoc.
Qed.

(** The check of the 'disconnect' listener compares socket ids (strings)
    with a user id (a number), so it never finds anything. *)
Lemma hasOtherConnections_false (w : world) (u : Z) :
  hasOtherConnections w u = false.
Proof.
  unfold hasOtherConnections.
  induction ((map_to_list (connectedUsers w)).*2) as [|v vs IH]; [done|].
  cbn. exact IH.
Qed.

Lemma on_disconnect_unfold (sid : string) (s : socket) (w : world) :
  on_disconnect sid s w =
  broadcastUserStatus (userId s) "offline"
    (set_store (λ d, update_status d "offline" (userId s))
       (set_userSockets (delete sid)
          (set_connectedUsers (delete (userId s)) w))).
Proof. unfold on_disconnect. by rewrite hasOtherConnections_false. Qed.

(** The 'disconnect' listener, field by field. *)
Lemma on_disconnect_fields (sid : string) (s : socket) (w : world) :
  let w' := on_disconnect sid s w in
  connectedUsers w' = delete (userId s) (connectedUsers w) ∧
  userSockets w' = delete sid (userSockets w) ∧
  connectionAttempts w' = connectionAttempts w ∧
  sockets w' = sockets w ∧
  rooms w' = rooms w ∧
  awaiting w' = awaiting w ∧
  store w' = update_status (store w) "offline" (userId s) ∧
  ∃ l, log w' = log w ++ l.
Proof.
  cbn zeta. rewrite on_disconnect_unfold.
  match goal with |- context [broadcastUserStatus ?u ?st ?x] =>
    destruct (broadcast_only_logs u st x) as [l ->] end.
  destruct w; cbn. split_and!; try done. by exists l.
Qed.

Lemma close_socket_fields (sid : string) (s : socket) (w : world) :
  sockets w !! sid = Some s →
  let w' := close_socket sid w in
  connectedUsers w' = delete (userId s) (connectedUsers w) ∧
  userSockets w' = delete sid (userSockets w) ∧
  connectionAttempts w' = connectionAttempts w ∧
  sockets w' = delete sid (sockets w) ∧
  awaiting w' = awaiting w ∧
  store w' = update_status (store w) "offline" (userId s) ∧
  ∃ l, log w' = log w ++ l.
Proof.
  intros Hs. cbn zeta. unfold close_socket. rewrite Hs.
  destruct (on_disconnect_fields sid s (leave_all sid (set_sockets (delete sid) w)))
    as (-> & -> & -> & -> & _ & -> & -> & l & ->).
  destruct w; cbn. split_and!; try done. by exists l.
Qed.

End Frames.

(** ** The session registry *)

Module Registry.
Import Attempts Store Realtime Notions Frames.

(** C1 (the code at the failing input): two connections of alice whose
    handshakes both pass the eviction step before either session query
    answers are both registered.  [userSockets] then holds two entries for
    user 1, both sockets stay connected, and nobody was force-closed: the
    log holds the two online notices to bob and nothing else. *)
Theorem C1_overlapping_admissions_register_twice :
  userSockets Demo.two_tabs !! "s1" = Some (1, "alice") ∧
  userSockets Demo.two_tabs !! "s2" = Some (1, "alice") ∧
  connectedUsers Demo.two_tabs !! 1 = Some "s2" ∧
  sockets Demo.two_tabs !! "s1" = Some (Socket 1 "alice") ∧
  sockets Demo.two_tabs !! "s2" = Some (Socket 1 "alice") ∧
  log Demo.two_tabs =
    [Emit (ToRoom "b1") ["b1"] (user_status_change 1 "online");
     Emit (ToRoom "b1") ["b1"] (user_status_change 1 "online")] ∧
  ¬ single_session Demo.two_tabs.
Proof.
  assert (H1 : userSockets Demo.two_tabs !! "s1" = Some (1, "alice"))
    by evaluate.
  assert (H2 : userSockets Demo.two_tabs !! "s2" = Some (1, "alice"))
    by evaluate.
  split_and!; [exact H1 | exact H2 | evaluate .. |].
  intros Hs. specialize (Hs _ _ _ _ _ H1 H2). discriminate Hs.
Qed.

(** C2 (counterexample): with "s2" the stored connection of user 1, the
    disconnect of "s1" removes the entry of user 1 all the same, while
    "s2" stays connected. *)
Lemma C2_late_disconnect_clobbers :
  connectedUsers Demo.two_tabs !! 1 = Some "s2" ∧
  sockets Demo.two_tabs !! "s1" = Some (Socket 1 "alice") ∧
  connectedUsers (step Demo.verify Demo.two_tabs (Closed "s1")) !! 1 = None ∧
  sockets (step Demo.verify Demo.two_tabs (Closed "s1")) !! "s2" = Some (Socket 1 "alice").
Proof. cbv zeta. split_and!; evaluate. Qed.

(** C2 (amended): the 'disconnect' listener deletes the entry of the
    connection's user from [connectedUsers] whatever connection id is
    stored there, and the entry of the connection's own id from
    [userSockets]; nothing else of the two maps changes. *)
Theorem C2_disconnect_deletes_unguarded (sid : string) (s : socket) (w : world) :
  connectedUsers (on_disconnect sid s w) = delete (userId s) (connectedUsers w) ∧
  userSockets (on_disconnect sid s w) = delete sid (userSockets w).
Proof.
  destruct (on_disconnect_fields sid s w) as (H1 & H2 & _). by split.
Qed.

(** C4 (the code at the failing input): alice has the connections "s1" and
    "s2" and is online; bob, an accepted contact, is connected as "b1".
    Closing "s1" alone writes status offline for alice and tells bob,
    although "s2" is still connected and registered; closing "s2"
    afterwards tells bob a second time. *)
Theorem C4_closing_one_of_two_goes_offline :
  let w := Demo.two_tabs in
  let w1 := step Demo.verify w (Closed "s1") in
  let w2 := step Demo.verify w1 (Closed "s2") in
  status_of (store w) 1 = Some "online" ∧
  userSockets w1 !! "s2" = Some (1, "alice") ∧
  sockets w1 !! "s2" = Some (Socket 1 "alice") ∧
  status_of (store w1) 1 = Some "offline" ∧
  log w1 = log w ++ [Emit (ToRoom "b1") ["b1"] (user_status_change 1 "offline")] ∧
  log w2 = log w1 ++ [Emit (ToRoom "b1") ["b1"] (user_status_change 1 "offline")].
Proof. cbv zeta. split_and!; evaluate. Qed.

End Registry.

(** ** The rate limiter on one record *)

Module Limiter.
Import Attempts Store Realtime Notions Frames.

(** A record whose block has not run out refuses the attempt and is left
    as it is. *)
Lemma rate_limit_blocked (ca : gmap Z attempt) (u now : Z) (a : attempt) :
  ca !! u = Some a → blocked a = true →
  now - lastAttempt a < BLOCK_DURATION →
  rate_limit ca u now = (TooMany, ca).
Proof.
  intros Ha Hb Ht. destruct a as [c l b]. cbn in Hb, Ht. subst b.
  unfold rate_limit, get_attempts. rewrite Ha. cbn.
  by rewrite bool_decide_eq_true_2.
Qed.

(** A record whose block has run out starts again at one. *)
Lemma rate_limit_cooled (ca : gmap Z attempt) (u now : Z) (a : attempt) :
  ca !! u = Some a → blocked a = true →
  now - lastAttempt a >= BLOCK_DURATION →
  rate_limit ca u now = (Pass, <[u := Attempt 1 now false]> ca).
Proof.
  intros Ha Hb Ht. destruct a as [c l b]. cbn in Hb, Ht. subst b.
  unfold rate_limit, get_attempts. rewrite Ha.
  unfold BLOCK_DURATION, ATTEMPT_WINDOW in *.
  cbn [default blocked lastAttempt count andb].
  repeat (case_bool_decide; cbn [blocked lastAttempt count andb]);
    (done || lia).
Qed.

(** Outside the case of a block in force, the record is written back with
    [lastAttempt] set to the time of the attempt. *)
Lemma rate_limit_stamps (ca : gmap Z attempt) (u now : Z) :
  let a := get_attempts ca u in
  ¬ (blocked a = true ∧ now - lastAttempt a < BLOCK_DURATION) →
  lastAttempt <$> (rate_limit ca u now).2 !! u = Some now.
Proof.
  cbn zeta. intros Hnb. unfold rate_limit.
  destruct (get_attempts ca u) as [c l b].
  cbn [blocked lastAttempt count] in *.
  destruct b; cbn [andb].
  - rewrite bool_decide_eq_false_2 by (intros ?; apply Hnb; done).
    repeat (case_bool_decide; cbn [blocked lastAttempt count snd]);
      by rewrite lookup_insert_eq.
  - repeat (case_bool_decide; cbn [blocked lastAttempt count snd]);
      by rewrite lookup_insert_eq.
Qed.

(** The limiter touches no record but the one of its user. *)
Lemma rate_limit_other (ca : gmap Z attempt) (u v now : Z) :
  u ≠ v → (rate_limit ca u now).2 !! v = ca !! v.
Proof.
  intros Hne. unfold rate_limit.
  repeat (case_match || case_bool_decide); cbn [snd];
    by rewrite ?lookup_insert_ne.
Qed.

Lemma hot_weaken (T T' : Z → Prop) (k t : Z) (oa : option attempt) :
  (∀ x, T x → T' x) → hot T k t oa → hot T' k t oa.
Proof.
  intros HT (a & Ha & [H|[Hb Hl]]); exists a; (split; [done|]); [by left|].
  right. split; [done|]. by apply HT.
Qed.

Lemma rate_limit_first (T : Z → Prop) (ca : gmap Z attempt) (u now : Z) :
  unblocked ca u → T now →
  hot T 1 now ((rate_limit ca u now).2 !! u).
Proof.
  unfold unblocked, rate_limit, get_attempts.
  intros Hu HT. destruct (ca !! u) as [[c l b]|] eqn:Ha; cbn in *.
  - destruct Hu as [-> Hc]. cbn.
    repeat (case_bool_decide; cbn);
      rewrite lookup_insert_eq; eexists; (split; [done|]); cbn;
      first [left; split_and!; (done || lia) | right; done].
  - repeat (case_bool_decide; cbn);
      rewrite lookup_insert_eq; eexists; (split; [done|]); cbn;
      first [left; split_and!; (done || unfold MAX_ATTEMPTS in *; lia) | right; done].
Qed.

Lemma rate_limit_next (T : Z → Prop) (ca : gmap Z attempt) (u now k t : Z) :
  hot T k t (ca !! u) →
  (now - t < ATTEMPT_WINDOW)%Z →
  (∀ x, T x → now - x < ATTEMPT_WINDOW)%Z →
  hot (λ x, T x ∨ x = now) (k + 1) now ((rate_limit ca u now).2 !! u) ∧
  (3 ≤ k → (rate_limit ca u now).1 = TooMany ∧
           ∃ a, (rate_limit ca u now).2 !! u = Some a ∧ blocked a = true)%Z.
Proof.
  intros (a & Ha & Hcase) Hnow HT.
  destruct Hcase as [(Hb & Hk & Hl) | (Hb & Hl)].
  - destruct a as [c l b]. cbn in Hb, Hk, Hl. subst b l.
    unfold rate_limit, get_attempts. rewrite Ha. cbn.
    rewrite bool_decide_eq_true_2 by done.
    cbn. case_bool_decide as Hmax; cbn; rewrite lookup_insert_eq.
    + split; [|intros _; split; [done|by eexists]].
      eexists; split; [done|]. right. cbn. by auto.
    + unfold MAX_ATTEMPTS in Hmax. split; [|intros ?; lia].
      eexists; split; [done|]. left. cbn. split_and!; (done || lia).
  - assert (now - lastAttempt a < BLOCK_DURATION)%Z as Hlt.
    { specialize (HT _ Hl). unfold ATTEMPT_WINDOW, BLOCK_DURATION in *. lia. }
    rewrite (rate_limit_blocked ca u now a Ha Hb Hlt). cbn.
    split; [|intros _; split; [done|by exists a]].
    exists a. split; [done|]. right. by auto.
Qed.

(** Clearing a record on connection keeps the time of its last attempt. *)
Lemma reset_attempts_lastAttempt (ca : gmap Z attempt) (u v : Z) :
  lastAttempt <$> reset_attempts ca v !! u = lastAttempt <$> ca !! u.
Proof.
  unfold reset_attempts. destruct (ca !! v) as [a|] eqn:Hv; [|done].
  destruct (decide (v = u)) as [->|Hne].
  - by rewrite lookup_insert_eq, Hv.
  - by rewrite lookup_insert_ne.
Qed.

End Limiter.

(** ** Admission *)

Module Admission.
Import Attempts Store Realtime Notions Frames Limiter.

Section WithVerifier.

Variable jwt_verify : string → option (Z * string).

(** Eviction leaves the attempt records and the suspended middleware runs
    alone. *)
Lemma evict_existing_frame (sid : string) (u : Z) (w : world) :
  connectionAttempts (evict_existing sid u w) = connectionAttempts w ∧
  awaiting (evict_existing sid u w) = awaiting w.
Proof.
  unfold evict_existing.
  destruct (connectedUsers w !! u) as [old|]; [|done].
  destruct (truthy old && negb (bool_decide (old = sid))); [|done].
  destruct (sockets w !! old) as [s|] eqn:Hs; [|by destruct w].
  unfold disconnect_forced.
  destruct (close_socket_fields old s (set_log (λ l, l ++ [ForcedClose old]) w))
    as (_ & _ & Hca & _ & Haw & _); [by destruct w|].
  cbn zeta in *.
  set (w1 := close_socket old _) in *.
  destruct w1; destruct w; cbn in *. by subst.
Qed.

(** Eviction proper: an existing, different connection of the user is
    closed by the server when it is still connected, and both of its
    registry entries are gone. *)
Lemma evict_existing_evicts (sid old : string) (u : Z) (w : world) :
  connectedUsers w !! u = Some old → old ≠ "" → old ≠ sid →
  let w' := evict_existing sid u w in
  connectedUsers w' !! u = None ∧
  userSockets w' !! old = None ∧
  sockets w' !! old = None ∧
  (sockets w !! old ≠ None → ForcedClose old ∈ log w').
Proof.
  intros Hold Hne Hsid. cbn zeta. unfold evict_existing. rewrite Hold.
  unfold truthy. rewrite !bool_decide_eq_false_2 by done. cbn [negb andb].
  destruct (sockets w !! old) as [s|] eqn:Hs.
  - unfold disconnect_forced.
    destruct (close_socket_fields old s (set_log (λ l, l ++ [ForcedClose old]) w))
      as (_ & _ & _ & Hso & _ & _ & l & Hlog); [by destruct w|].
    cbn zeta in *.
    set (w1 := close_socket old _) in *.
    destruct w1 as [cu us ca so ro aw st lg]; destruct w; cbn in *. subst so lg.
    split_and!; try apply lookup_delete_eq.
    intros _. set_solver.
  - destruct w; cbn in *.
    split_and!; try apply lookup_delete_eq; done.
Qed.

(** An attempt without a verified credential is refused and nothing
    changes. *)
Lemma authenticate_no_credential (sid : string) (token : option string)
    (now : Z) (w : world) :
  credential jwt_verify token = None →
  (authenticate jwt_verify sid token now w).2 = w ∧
  ((authenticate jwt_verify sid token now w).1 = Refused token_required ∨
   (authenticate jwt_verify sid token now w).1 = Refused auth_failed).
Proof.
  unfold credential, authenticate. destruct token as [t|]; [|by auto].
  destruct (truthy t); cbn [negb]; [|by auto].
  intros ->. by auto.
Qed.

(** With a verified credential the outcome of the first half of the
    middleware is the verdict of the limiter, and the records are what the
    limiter left. *)
Lemma authenticate_limited (sid : string) (token : option string)
    (now : Z) (w : world) (u : Z) (name : string) :
  credential jwt_verify token = Some (u, name) →
  (authenticate jwt_verify sid token now w).1 =
    match (rate_limit (connectionAttempts w) u now).1 with
    | TooMany => Refused too_many
    | Pass => Suspended
    end ∧
  connectionAttempts (authenticate jwt_verify sid token now w).2 =
    (rate_limit (connectionAttempts w) u now).2.
Proof.
  unfold credential, authenticate. destruct token as [t|]; [|done].
  destruct (truthy t); cbn [negb]; [|done].
  intros ->.
  destruct (rate_limit (connectionAttempts w) u now) as [[|] ca] eqn:Hr;
    cbn [fst snd].
  - split; [done|].
    match goal with |- connectionAttempts (set_awaiting _ ?x) = _ =>
      transitivity (connectionAttempts x); [by destruct x|] end.
    destruct (evict_existing_frame sid u (set_connectionAttempts (λ _, ca) w)) as [-> _].
    by destruct w.
  - split; [done|]. by destruct w.
Qed.

(** A passing attempt is suspended with its credential, after eviction. *)
Lemma authenticate_pass (sid tok : string) (now : Z) (w : world)
    (u : Z) (name : string) :
  credential jwt_verify (Some tok) = Some (u, name) →
  (rate_limit (connectionAttempts w) u now).1 = Pass →
  (authenticate jwt_verify sid (Some tok) now w).2 =
    set_awaiting (<[sid := (u, name, tok)]>)
      (evict_existing sid u
         (set_connectionAttempts (λ _, (rate_limit (connectionAttempts w) u now).2) w)).
Proof.
  unfold credential, authenticate.
  destruct (truthy tok); cbn [negb]; [|done].
  intros -> Hp.
  destruct (rate_limit (connectionAttempts w) u now) as [[|] ca]; [done|].
  cbn in Hp. discriminate.
Qed.

(** What the connection handler leaves in the registry and in the
    records. *)
Lemma on_connection_fields (sid : string) (s : socket) (w : world) :
  let w' := on_connection sid s w in
  connectedUsers w' = <[userId s := sid]> (connectedUsers w) ∧
  userSockets w' = <[sid := (userId s, username s)]> (userSockets w) ∧
  connectionAttempts w' = reset_attempts (connectionAttempts w) (userId s).
Proof.
  cbn zeta. unfold on_connection, joinUserConversations.
  match goal with |- context [foldl ?f ?x ?l] =>
    assert (Hf : ∀ l' x', connectedUsers (foldl f x' l') = connectedUsers x' ∧
                         userSockets (foldl f x' l') = userSockets x' ∧
                         connectionAttempts (foldl f x' l') = connectionAttempts x')
  end.
  { induction l' as [|c l' IH]; intros x'; [done|].
    cbn [foldl]. destruct (IH (join sid (conversation_room c) x')) as (-> & -> & ->).
    by destruct x'. }
  match goal with |- context [foldl ?f ?x ?l] =>
    destruct (Hf l x) as (-> & -> & ->) end.
  match goal with |- context [broadcastUserStatus ?u ?st ?x] =>
    destruct (broadcast_only_logs u st x) as [l ->] end.
  by destruct w.
Qed.

Lemma authenticate_awaits (sid tok : string) (now : Z) (w : world)
    (u : Z) (name : string) :
  credential jwt_verify (Some tok) = Some (u, name) →
  (rate_limit (connectionAttempts w) u now).1 = Pass →
  awaiting (authenticate jwt_verify sid (Some tok) now w).2 !! sid = Some (u, name, tok).
Proof.
  intros Hc Hp. rewrite (authenticate_pass _ _ _ _ _ _ Hc Hp).
  match goal with |- awaiting (set_awaiting ?f ?x) !! _ = _ =>
    transitivity (f (awaiting x) !! sid); [by destruct x|] end.
  apply lookup_insert_eq.
Qed.

Lemma session_reply_awaited (sid : string) (w : world) (u : Z) (name tok : string) :
  awaiting w !! sid = Some (u, name, tok) →
  session_reply sid w =
    if bool_decide (length (select_user_session (store w) u tok) = 0%nat)
    then (Refused invalid_token, set_awaiting (delete sid) w)
    else (Accepted, on_connection sid (Socket u name) (set_awaiting (delete sid) w)).
Proof.
  intros Ha. unfold session_reply. rewrite Ha.
  replace (store (set_awaiting (delete sid) w)) with (store w) by (by destruct w).
  done.
Qed.

(** The second half of the middleware, and the connection handler after
    it, keep every [lastAttempt]. *)
Lemma session_reply_lastAttempt (sid : string) (w : world) (u : Z) :
  lastAttempt <$> connectionAttempts (session_reply sid w).2 !! u =
  lastAttempt <$> connectionAttempts w !! u.
Proof.
  unfold session_reply.
  destruct (awaiting w !! sid) as [[[u' n] t]|]; [|done].
  case_bool_decide; cbn [snd]; [by destruct w|].
  destruct (on_connection_fields sid (Socket u' n) (set_awaiting (delete sid) w))
    as (_ & _ & ->).
  rewrite reset_attempts_lastAttempt. by destruct w.
Qed.

(** C9: an attempt whose token decodes and that passes the limiter, made
    while the user has another registered connection [old], reaches the
    session query only after [old] was closed by the server (when it was
    still connected) and both registry entries of [old] were deleted.  When
    the query then finds no valid session, the attempt is refused with
    "Invalid or expired token" and the registry stays without [old]: the
    refusal does not undo the eviction. *)
Theorem C9_refused_attempt_has_already_evicted
    (sid tok old : string) (now : Z) (w : world) (u : Z) (name : string) :
  credential jwt_verify (Some tok) = Some (u, name) →
  connectedUsers w !! u = Some old → old ≠ "" → old ≠ sid →
  (authenticate jwt_verify sid (Some tok) now w).1 = Suspended →
  select_user_session (store (authenticate jwt_verify sid (Some tok) now w).2) u tok = [] →
  let w' := (session_reply sid (authenticate jwt_verify sid (Some tok) now w).2).2 in
  (session_reply sid (authenticate jwt_verify sid (Some tok) now w).2).1
    = Refused invalid_token ∧
  connectedUsers w' !! u = None ∧
  userSockets w' !! old = None ∧
  sockets w' !! old = None ∧
  (sockets w !! old ≠ None → ForcedClose old ∈ log w').
Proof.
  intros Hc Hold Hne Hsid Hsusp Hrows.
  destruct (authenticate_limited sid (Some tok) now w u name Hc) as [Hv _].
  rewrite Hsusp in Hv.
  assert (Hp : (rate_limit (connectionAttempts w) u now).1 = Pass)
    by (destruct (rate_limit (connectionAttempts w) u now).1; done).
  pose proof (authenticate_awaits sid tok now w u name Hc Hp) as Haw.
  rewrite (session_reply_awaited _ _ _ _ _ Haw), Hrows.
  cbn [length]. rewrite bool_decide_eq_true_2 by done. cbn [fst snd].
  rewrite (authenticate_pass _ _ _ _ _ _ Hc Hp).
  set (w0 := set_connectionAttempts _ w).
  destruct (evict_existing_evicts sid old u w0) as (H1 & H2 & H3 & H4);
    [by destruct w | done | done |].
  cbn zeta in *. set (w1 := evict_existing sid u w0) in *.
  split; [done|].
  replace (sockets w0) with (sockets w) in H4 by (by destruct w).
  destruct w1; cbn in *. by split_and!.
Qed.

(** C7 (amended): an attempt that fails credential verification changes
    nothing.  An attempt whose token decodes and that meets a block still
    in force is refused and leaves the attempt records as they are.  Every
    other attempt whose token decodes has [lastAttempt] set to the time of
    the attempt, whether it is refused for too many attempts or goes on to
    the session query, and whatever that query decides afterwards. *)
Theorem C7_lastAttempt_stamped_unless_block_in_force
    (sid : string) (token : option string) (now : Z) (w : world) :
  (credential jwt_verify token = None →
     (authenticate jwt_verify sid token now w).2 = w) ∧
  (∀ u name, credential jwt_verify token = Some (u, name) →
     (blocked (get_attempts (connectionAttempts w) u) = true ∧
      now - lastAttempt (get_attempts (connectionAttempts w) u) < BLOCK_DURATION →
        (authenticate jwt_verify sid token now w).1 = Refused too_many ∧
        connectionAttempts (authenticate jwt_verify sid token now w).2
          = connectionAttempts w) ∧
     (¬ (blocked (get_attempts (connectionAttempts w) u) = true ∧
         now - lastAttempt (get_attempts (connectionAttempts w) u) < BLOCK_DURATION) →
        lastAttempt <$>
          connectionAttempts (authenticate jwt_verify sid token now w).2 !! u
          = Some now ∧
        lastAttempt <$>
          connectionAttempts
            (session_reply sid (authenticate jwt_verify sid token now w).2).2 !! u
          = Some now)).
Proof.
  split.
  - intros Hc. by destruct (authenticate_no_credential sid token now w Hc).
  - intros u name Hc.
    destruct (authenticate_limited sid token now w u name Hc) as [Hv Hca].
    split.
    + intros [Hb Ht]. rewrite Hv, Hca.
      unfold get_attempts in Hb, Ht.
      destruct (connectionAttempts w !! u) as [a|] eqn:Ha; [|done].
      cbn in Hb, Ht. by rewrite (rate_limit_blocked _ _ _ _ Ha Hb Ht).
    + intros Hnb. rewrite session_reply_lastAttempt, Hca.
      split; by apply rate_limit_stamps.
Qed.

(** C3 (amended): take a user whose token decodes and whose record is
    absent or not blocked, and four attempts each less than
    [ATTEMPT_WINDOW] after the earlier ones, the record of the user not
    being touched between one attempt and the next (so no earlier attempt
    of the burst has been connected, which would clear the count).  Then
    the fourth attempt is refused for too many attempts and the record is
    blocked.  From any later state holding that record, an attempt made
    [BLOCK_DURATION] or more after its [lastAttempt] passes the limiter
    with the block cleared and the count back at one, and when its session
    is valid it is admitted and connected, which puts the count at zero. *)
Theorem C3_burst_is_blocked_and_cooldown_lets_in
    (tok name : string) (u : Z) (s1 s2 s3 s4 : string) (t1 t2 t3 t4 : Z)
    (w1 w2 w3 w4 : world) :
  credential jwt_verify (Some tok) = Some (u, name) →
  unblocked (connectionAttempts w1) u →
  t2 - t1 < ATTEMPT_WINDOW ∧ t3 - t1 < ATTEMPT_WINDOW ∧ t3 - t2 < ATTEMPT_WINDOW ∧
  t4 - t1 < ATTEMPT_WINDOW ∧ t4 - t2 < ATTEMPT_WINDOW ∧ t4 - t3 < ATTEMPT_WINDOW →
  connectionAttempts w2 !! u =
    connectionAttempts (authenticate jwt_verify s1 (Some tok) t1 w1).2 !! u →
  connectionAttempts w3 !! u =
    connectionAttempts (authenticate jwt_verify s2 (Some tok) t2 w2).2 !! u →
  connectionAttempts w4 !! u =
    connectionAttempts (authenticate jwt_verify s3 (Some tok) t3 w3).2 !! u →
  (authenticate jwt_verify s4 (Some tok) t4 w4).1 = Refused too_many ∧
  ∃ a, connectionAttempts (authenticate jwt_verify s4 (Some tok) t4 w4).2 !! u = Some a ∧
       blocked a = true ∧
       ∀ (s5 : string) (t5 : Z) (w5 : world),
         connectionAttempts w5 !! u = Some a →
         t5 - lastAttempt a >= BLOCK_DURATION →
         (authenticate jwt_verify s5 (Some tok) t5 w5).1 = Suspended ∧
         connectionAttempts (authenticate jwt_verify s5 (Some tok) t5 w5).2 !! u
           = Some (Attempt 1 t5 false) ∧
         (select_user_session
            (store (authenticate jwt_verify s5 (Some tok) t5 w5).2) u tok ≠ [] →
          (session_reply s5 (authenticate jwt_verify s5 (Some tok) t5 w5).2).1
            = Accepted ∧
          connectionAttempts
            (session_reply s5 (authenticate jwt_verify s5 (Some tok) t5 w5).2).2 !! u
            = Some (Attempt 0 t5 false)).
Proof.
  intros Hc Hu (H21 & H31 & H32 & H41 & H42 & H43) E2 E3 E4.
  pose proof (λ s t w, proj2 (authenticate_limited s (Some tok) t w u name Hc)) as Hca.
  rewrite Hca in E2, E3, E4.
  pose proof (rate_limit_first (λ x, x = t1) _ u t1 Hu eq_refl) as Hot1.
  rewrite <- E2 in Hot1.
  destruct (rate_limit_next _ _ u t2 1 t1 Hot1 H21) as [Hot2 _];
    [by intros x ->|].
  rewrite <- E3 in Hot2.
  destruct (rate_limit_next _ _ u t3 _ t2 Hot2 H32) as [Hot3 _];
    [by intros x [->| ->]|].
  rewrite <- E4 in Hot3.
  destruct (rate_limit_next _ _ u t4 _ t3 Hot3 H43) as [_ Hfin];
    [by intros x [[->| ->]| ->]|].
  destruct Hfin as (Hv & a & Ha & Hb); [lia|].
  destruct (authenticate_limited s4 (Some tok) t4 w4 u name Hc) as [Hv4 Hca4].
  rewrite Hv in Hv4. split; [done|].
  exists a. rewrite Hca4. split; [done|]. split; [done|].
  intros s5 t5 w5 Ha5 Ht5.
  pose proof (rate_limit_cooled _ u t5 a Ha5 Hb Ht5) as Hcool.
  destruct (authenticate_limited s5 (Some tok) t5 w5 u name Hc) as [Hv5 Hca5].
  rewrite Hcool in Hv5, Hca5. cbn [fst snd] in Hv5, Hca5.
  split; [done|]. rewrite Hca5, lookup_insert_eq. split; [done|].
  intros Hrows.
  assert (Hp : (rate_limit (connectionAttempts w5) u t5).1 = Pass) by (by rewrite Hcool).
  pose proof (authenticate_awaits s5 tok t5 w5 u name Hc Hp) as Haw.
  rewrite (session_reply_awaited _ _ _ _ _ Haw).
  rewrite bool_decide_eq_false_2
    by (intros Hl; apply Hrows; by apply length_zero_iff_nil).
  cbn [fst snd]. split; [done|].
  destruct (on_connection_fields s5 (Socket u name)
              (set_awaiting (delete s5) (authenticate jwt_verify s5 (Some tok) t5 w5).2))
    as (_ & _ & ->).
  replace (connectionAttempts (set_awaiting (delete s5)
             (authenticate jwt_verify s5 (Some tok) t5 w5).2))
    with (connectionAttempts (authenticate jwt_verify s5 (Some tok) t5 w5).2)
    by (by destruct (authenticate jwt_verify s5 (Some tok) t5 w5).2).
  rewrite Hca5. unfold reset_attempts. cbn [userId].
  by rewrite lookup_insert_eq, lookup_insert_eq.
Qed.

End WithVerifier.

(** *** The theorems at work on the concrete deployment *)

(** alice is connected as "s1"; an attempt "s2" with her old token, which
    decodes but has no session row, is refused, and "s1" is gone. *)
Lemma C9_refused_attempt_witness :
  let w := run Demo.verify (initial Demo.db)
             [Handshake "s1" Demo.alice 100000; SessionReply "s1"] in
  let r := authenticate Demo.verify "s2" (Some "alice-old-token") 200000 w in
  connectedUsers w !! 1 = Some "s1" ∧
  (session_reply "s2" r.2).1 = Refused invalid_token ∧
  connectedUsers (session_reply "s2" r.2).2 !! 1 = None ∧
  userSockets (session_reply "s2" r.2).2 !! "s1" = None ∧
  sockets (session_reply "s2" r.2).2 !! "s1" = None.
Proof.
  cbv zeta. split; [evaluate|].
  destruct (C9_refused_attempt_has_already_evicted Demo.verify
              "s2" "alice-old-token" "s1" 200000
              (run Demo.verify (initial Demo.db)
                 [Handshake "s1" Demo.alice 100000; SessionReply "s1"])
              1 "alice")
    as (H1 & H2 & H3 & H4 & _);
    [evaluate | evaluate | done | done | evaluate | evaluate |].
  by split_and!.
Defined.

(** C7 (counterexample): alice is blocked since 103000; her attempt at
    104000 presents a token that decodes, is refused, and [lastAttempt]
    stays 103000. *)
Lemma C7_blocked_attempt_keeps_lastAttempt :
  let w := run Demo.verify (initial Demo.db)
             (Demo.burst ++ [Handshake "s4" Demo.alice 103000]) in
  let r := authenticate Demo.verify "s5" Demo.alice 104000 w in
  credential Demo.verify Demo.alice = Some (1, "alice") ∧
  r.1 = Refused too_many ∧
  connectionAttempts r.2 !! 1 = Some (Attempt 4 103000 true).
Proof. cbv zeta. split_and!; evaluate. Qed.

Lemma C7_lastAttempt_witness :
  (authenticate Demo.verify "s1" None 100000 (initial Demo.db)).2 = initial Demo.db ∧
  lastAttempt <$>
    connectionAttempts
      (authenticate Demo.verify "s1" Demo.alice 100000 (initial Demo.db)).2 !! 1
    = Some 100000.
Proof.
  destruct (C7_lastAttempt_stamped_unless_block_in_force Demo.verify
              "s1" None 100000 (initial Demo.db)) as [H1 _].
  destruct (C7_lastAttempt_stamped_unless_block_in_force Demo.verify
              "s1" Demo.alice 100000 (initial Demo.db)) as [_ H2].
  split; [apply H1; evaluate|].
  destruct (H2 1 "alice") as [_ H3]; [evaluate|].
  apply H3. intros [Hb _]. vm_compute in Hb. discriminate Hb.
Defined.

(** C3 (counterexample): alice's token is valid and so is her session;
    she makes four attempts one second apart and each of the first three
    is connected before the next.  The fourth passes the limiter with a
    count of one and is admitted. *)
Lemma C3_spaced_attempts_all_connect :
  let w := run Demo.verify (initial Demo.db) Demo.spaced in
  let r := authenticate Demo.verify "s4" Demo.alice 103000 w in
  connectedUsers w !! 1 = Some "s3" ∧
  r.1 = Suspended ∧
  connectionAttempts r.2 !! 1 = Some (Attempt 1 103000 false) ∧
  (session_reply "s4" r.2).1 = Accepted.
Proof. cbv zeta. split_and!; evaluate. Qed.

(** The burst of four handshakes none of which has been answered: the
    fourth is refused; twelve seconds later alice is admitted again. *)
Lemma C3_burst_witness :
  let w1 := initial Demo.db in
  let w2 := (authenticate Demo.verify "s1" Demo.alice 100000 w1).2 in
  let w3 := (authenticate Demo.verify "s2" Demo.alice 101000 w2).2 in
  let w4 := (authenticate Demo.verify "s3" Demo.alice 102000 w3).2 in
  let r4 := authenticate Demo.verify "s4" Demo.alice 103000 w4 in
  let r5 := authenticate Demo.verify "s5" Demo.alice 115000 r4.2 in
  r4.1 = Refused too_many ∧
  r5.1 = Suspended ∧
  (session_reply "s5" r5.2).1 = Accepted.
Proof.
  cbv zeta.
  destruct (C3_burst_is_blocked_and_cooldown_lets_in Demo.verify
              "alice-token" "alice" 1 "s1" "s2" "s3" "s4"
              100000 101000 102000 103000
              (initial Demo.db)
              (authenticate Demo.verify "s1" Demo.alice 100000 (initial Demo.db)).2
              (authenticate Demo.verify "s2" Demo.alice 101000
                 (authenticate Demo.verify "s1" Demo.alice 100000 (initial Demo.db)).2).2
              (authenticate Demo.verify "s3" Demo.alice 102000
                 (authenticate Demo.verify "s2" Demo.alice 101000
                    (authenticate Demo.verify "s1" Demo.alice 100000
                       (initial Demo.db)).2).2).2)
    as (H4 & a & Ha & Hb & Hlater);
    [evaluate | by vm_compute | by vm_compute | done | done | done |].
  split; [exact H4|].
  assert (a = Attempt 4 103000 true) as ->.
  { vm_compute in Ha. by injection Ha as <-. }
  destruct (Hlater "s5" 115000 _ Ha) as (H5 & _ & H6); [by vm_compute|].
  split; [exact H5|].
  apply H6. vm_compute. discriminate.
Defined.

End Admission.

(** ** The registry when requests are served one at a time *)

Module Sequential.
Import Attempts Store Realtime Notions Frames Limiter Admission.

Lemma coherent_single_session (w : world) : coherent w → single_session w.
Proof.
  intros (H1 & _ & _) s1 s2 u n1 n2 E1 E2.
  apply H1 in E1, E2. congruence.
Qed.

(** Coherence looks at the registry and at the connected sockets only. *)
Lemma coherent_same (w w' : world) :
  connectedUsers w' = connectedUsers w → userSockets w' = userSockets w →
  sockets w' = sockets w → coherent w → coherent w'.
Proof. unfold coherent. by intros -> -> ->. Qed.

Lemma close_socket_coherent (sid : string) (w : world) :
  coherent w → coherent (close_socket sid w).
Proof.
  intros Hc. destruct (sockets w !! sid) as [s|] eqn:Hs.
  - destruct (close_socket_fields sid s w Hs) as (Hcu & Hus & _ & Hso & _).
    cbn zeta in *. destruct Hc as (H1 & H2 & H3).
    unfold coherent. rewrite Hcu, Hus, Hso. split_and!.
    + intros sid' u n Hl. apply lookup_delete_Some in Hl as [Hne Hl].
      pose proof (H1 _ _ _ Hl) as Hu.
      rewrite lookup_delete_ne; [done|].
      intros <-. apply H2, H1 in Hs. congruence.
    + intros sid' s' Hl. apply lookup_delete_Some in Hl as [Hne Hl].
      rewrite lookup_delete_ne by done. by apply H2.
    + destruct (decide (sid = "")) as [->|Hne];
        [apply lookup_delete_eq | by rewrite lookup_delete_ne].
  - unfold close_socket. by rewrite Hs.
Qed.

(** After the eviction step the only connection that can still be
    recorded for the user is the arriving one. *)
Lemma evict_existing_coherent (sid : string) (u : Z) (w : world) :
  coherent w →
  coherent (evict_existing sid u w) ∧
  ∀ sid' n, userSockets (evict_existing sid u w) !! sid' = Some (u, n) → sid' = sid.
Proof.
  intros Hc. unfold evict_existing.
  destruct (connectedUsers w !! u) as [old|] eqn:Hold.
  2:{ split; [done|]. intros sid' n Hl. destruct Hc as (H1 & _). apply H1 in Hl. congruence. }
  destruct (truthy old && negb (bool_decide (old = sid))) eqn:Hev.
  2:{ split; [done|]. intros sid' n Hl. pose proof Hc as (H1 & _ & H3).
      apply H1 in Hl as Hu. rewrite Hold in Hu. injection Hu as ->.
      apply andb_false_iff in Hev as [Ht|Hs].
      - unfold truthy in Ht. apply negb_false_iff, bool_decide_eq_true in Ht. subst.
        congruence.
      - by apply negb_false_iff, bool_decide_eq_true in Hs. }
  set (w1 := match sockets w !! old with
             | Some _ => disconnect_forced old w
             | None => w
             end).
  assert (coherent w1 ∧
          (∀ sid' x, userSockets w1 !! sid' = Some x → userSockets w !! sid' = Some x) ∧
          sockets w1 !! old = None) as (Hc1 & Hsub & Hgone).
  { subst w1. destruct (sockets w !! old) as [s|] eqn:Hs; [|done].
    unfold disconnect_forced.
    set (w0 := set_log _ w).
    assert (coherent w0) as Hc0 by (apply (coherent_same w); by destruct w).
    split; [by apply close_socket_coherent|].
    destruct (close_socket_fields old s w0) as (_ & Hus & _ & Hso & _); [by destruct w|].
    cbn zeta in *. rewrite Hus, Hso. split; [|apply lookup_delete_eq].
    intros sid' x Hl. apply lookup_delete_Some in Hl as [_ Hl]. by destruct w. }
  assert (connectedUsers (set_userSockets (delete old) (set_connectedUsers (delete u) w1))
            = delete u (connectedUsers w1)) as Hcu by (by destruct w1).
  assert (userSockets (set_userSockets (delete old) (set_connectedUsers (delete u) w1))
            = delete old (userSockets w1)) as Hus by (by destruct w1).
  assert (sockets (set_userSockets (delete old) (set_connectedUsers (delete u) w1))
            = sockets w1) as Hso by (by destruct w1).
  destruct Hc as (H1 & H2 & H3). destruct Hc1 as (H1' & H2' & H3').
  split.
  - unfold coherent. rewrite Hcu, Hus, Hso. split_and!.
    + intros sid' u' n Hl. apply lookup_delete_Some in Hl as [Hne Hl].
      rewrite lookup_delete_ne; [exact (H1' _ _ _ Hl)|].
      intros <-. pose proof (H1 _ _ _ (Hsub _ _ Hl)). congruence.
    + intros sid' s' Hl. rewrite lookup_delete_ne; [by apply H2'|].
      intros <-. congruence.
    + destruct (decide (old = "")) as [->|Hne];
        [apply lookup_delete_eq | by rewrite lookup_delete_ne].
  - intros sid' n. rewrite Hus. intros Hl.
    apply lookup_delete_Some in Hl as [Hne Hl].
    pose proof (H1 _ _ _ (Hsub _ _ Hl)). congruence.
Qed.

Lemma on_connection_sockets (sid : string) (s : socket) (w : world) :
  sockets (on_connection sid s w) = <[sid := s]> (sockets w) ∧
  awaiting (on_connection sid s w) = awaiting w.
Proof.
  unfold on_connection, joinUserConversations.
  match goal with |- context [foldl ?f ?x ?l] =>
    assert (Hf : ∀ l' x', sockets (foldl f x' l') = sockets x' ∧
                         awaiting (foldl f x' l') = awaiting x')
  end.
  { induction l' as [|c l' IH]; intros x'; [done|].
    cbn [foldl]. destruct (IH (join sid (conversation_room c) x')) as (-> & ->).
    by destruct x'. }
  match goal with |- context [foldl ?f ?x ?l] =>
    destruct (Hf l x) as (-> & ->) end.
  match goal with |- context [broadcastUserStatus ?u ?st ?x] =>
    destruct (broadcast_only_logs u st x) as [l ->] end.
  by destruct w.
Qed.

Lemma on_connection_coherent (sid : string) (s : socket) (w : world) :
  coherent w → sid ≠ "" →
  (∀ sid' n, userSockets w !! sid' = Some (userId s, n) → sid' = sid) →
  coherent (on_connection sid s w).
Proof.
  intros (H1 & H2 & H3) Hne Honly.
  destruct (on_connection_fields sid s w) as (Hcu & Hus & _).
  destruct (on_connection_sockets sid s w) as (Hso & _).
  cbn zeta in *. unfold coherent. rewrite Hcu, Hus, Hso. split_and!.
  - intros sid' u n Hl. apply lookup_insert_Some in Hl as [[<- [= <- <-]]|[Hn Hl]].
    + apply lookup_insert_eq.
    + rewrite lookup_insert_ne; [exact (H1 _ _ _ Hl)|].
      intros <-. by apply Honly in Hl.
  - intros sid' s' Hl. apply lookup_insert_Some in Hl as [[<- <-]|[Hn Hl]].
    + apply lookup_insert_eq.
    + rewrite lookup_insert_ne by done. by apply H2.
  - by rewrite lookup_insert_ne.
Qed.

Lemma same_registry_coherent (w w' : world) :
  same_registry w w' → coherent w → coherent w'.
Proof. intros (? & ? & ? & _). by apply coherent_same. Qed.

Lemma send_same_registry (sid : string) (s : socket) (data : send_data) (w : world) :
  same_registry w (on_send_message sid s data w).
Proof.
  unfold on_send_message, handleSendMessage, h_bind, query, try_query, execute, act,
    first_row, h_ret, throw.
  destruct w. repeat case_match; simplify_eq; done.
Qed.

Lemma for_each_same_registry {A} (f : A → handler unit) (l : list A) :
  (∀ a w, same_registry w (f a w).2) →
  ∀ w, same_registry w (for_each f l w).2.
Proof.
  intros Hf. induction l as [|a l IH]; intros w; [done|].
  cbn [for_each]. unfold h_bind.
  specialize (Hf a w). destruct (f a w) as [[[]|] w1]; cbn [snd] in *; [|done].
  specialize (IH w1). destruct Hf as (? & ? & ? & ?), IH as (? & ? & ? & ?).
  unfold same_registry. split_and!; congruence.
Qed.

Lemma mark_same_registry (sid : string) (s : socket) (data : read_data) (w : world) :
  same_registry w (on_mark_messages_read sid s data w).
Proof.
  unfold on_mark_messages_read, handleMarkMessagesRead.
  destruct (rd_conversationId data) as [c|]; [|done].
  destruct (rd_messageIds data) as [ids|]; [|done].
  case_bool_decide; [done|].
  unfold h_bind.
  pose proof (for_each_same_registry
                (λ messageId,
                   statement (λ d, (λ d', (d', ())) <$> insert_read d messageId (userId s)))
                ids) as Hfe.
  specialize (Hfe (λ a w0, ltac:(unfold statement; repeat case_match; by destruct w0)) w).
  destruct (for_each _ ids w) as [[[]|] w1]; cbn [snd] in *; [|done].
  destruct Hfe as (? & ? & ? & ?). unfold act. cbn [snd].
  unfold same_registry. by destruct w1.
Qed.

Section WithVerifier.
Variable jwt_verify : string → option (Z * string).

Lemma authenticate_cases (sid : string) (token : option string) (now : Z) (w : world) :
  same_registry w (authenticate jwt_verify sid token now w).2 ∨
  ∃ u name tok ca,
    (authenticate jwt_verify sid token now w).2 =
      set_awaiting (<[sid := (u, name, tok)]>)
        (evict_existing sid u (set_connectionAttempts (λ _, ca) w)).
Proof.
  unfold authenticate. destruct token as [t|]; [|by left].
  destruct (truthy t); cbn [negb]; [|by left].
  destruct (jwt_verify t) as [[u name]|]; [|by left].
  destruct (rate_limit (connectionAttempts w) u now) as [[|] ca].
  - right. by exists u, name, t, ca.
  - left. by destruct w.
Qed.

(** A connection whose session query is answered at once keeps the
    registry coherent. *)
Lemma connect_coherent (sid : string) (token : option string) (now : Z) (w : world) :
  sid ≠ "" → coherent w → awaiting w = ∅ →
  coherent (run jwt_verify w [Handshake sid token now; SessionReply sid]) ∧
  awaiting (run jwt_verify w [Handshake sid token now; SessionReply sid]) = ∅.
Proof.
  intros Hne Hc Haw. unfold run. cbn [foldl step].
  destruct (authenticate_cases sid token now w) as [Hsame|(u & name & tok & ca & ->)].
  - set (w1 := (authenticate jwt_verify sid token now w).2) in *.
    unfold session_reply. destruct Hsame as (? & ? & ? & Haw1).
    rewrite Haw1, Haw, lookup_empty. cbn [snd].
    split; [by apply (coherent_same w)|congruence].
  - set (w0 := set_connectionAttempts (λ _, ca) w).
    assert (coherent w0) as Hc0 by (apply (coherent_same w); by destruct w).
    destruct (evict_existing_coherent sid u w0 Hc0) as [Hc1 Honly].
    destruct (evict_existing_frame sid u w0) as [_ Haw1].
    set (w1 := evict_existing sid u w0) in *.
    assert (awaiting w1 = ∅) as Haw1' by (rewrite Haw1; by destruct w).
    clearbody w1. clear Haw1.
    rewrite (session_reply_awaited _ _ u name tok)
      by (destruct w1; cbn; apply lookup_insert_eq).
    set (w2 := set_awaiting (delete sid) (set_awaiting (<[sid := (u, name, tok)]>) w1)).
    assert (coherent w2) as Hc2 by (apply (coherent_same w1); by destruct w1).
    assert (awaiting w2 = ∅) as Haw2.
    { subst w2. destruct w1; cbn in *. subst. by rewrite delete_insert_eq. }
    case_bool_decide; cbn [snd]; [done|].
    destruct (on_connection_sockets sid (Socket u name) w2) as [_ ->].
    split; [|done].
    apply on_connection_coherent; [done|done|].
    intros sid' n Hl. apply (Honly sid' n). subst w2. by destruct w1.
Qed.

Lemma request_coherent (r : request) (w : world) :
  named r → coherent w → awaiting w = ∅ →
  coherent (run jwt_verify w (expand r)) ∧ awaiting (run jwt_verify w (expand r)) = ∅.
Proof.
  intros Hn Hc Haw.
  destruct r as [sid token now|sid data|sid data|sid c|sid c|sid|now]; cbn [expand].
  - by apply connect_coherent.
  - unfold run. cbn [foldl step]. unfold with_socket.
    destruct (sockets w !! sid) as [s|]; [|done].
    destruct (send_same_registry sid s data w) as (? & ? & ? & ?).
    split; [by apply (coherent_same w)|congruence].
  - unfold run. cbn [foldl step]. unfold with_socket.
    destruct (sockets w !! sid) as [s|]; [|done].
    destruct (mark_same_registry sid s data w) as (? & ? & ? & ?).
    split; [by apply (coherent_same w)|congruence].
  - unfold run. cbn [foldl step]. unfold with_socket.
    destruct (sockets w !! sid) as [s|]; [|done].
    split; [apply (coherent_same w)|]; by destruct w.
  - unfold run. cbn [foldl step]. unfold with_socket.
    destruct (sockets w !! sid) as [s|]; [|done].
    split; [apply (coherent_same w)|]; by destruct w.
  - unfold run. cbn [foldl step]. split; [by apply close_socket_coherent|].
    destruct (sockets w !! sid) as [s|] eqn:Hs.
    + destruct (close_socket_fields sid s w Hs) as (_ & _ & _ & _ & -> & _). done.
    + unfold close_socket. by rewrite Hs.
  - unfold run. cbn [foldl step]. split; [apply (coherent_same w)|]; by destruct w.
Qed.

(** X8: when every connection is answered before the next request is
    served, the registry never holds two connections of one user. *)
Theorem sequential_requests_keep_single_session (d : database) (reqs : list request) :
  Forall named reqs →
  single_session (run jwt_verify (initial d) (reqs ≫= expand)).
Proof.
  intros Hn. apply coherent_single_session.
  assert (coherent (initial d) ∧ awaiting (initial d) = ∅) as Hinit.
  { split; [|done]. unfold coherent, initial. cbn. split_and!; by intros. }
  revert Hinit. generalize (initial d) as w.
  induction Hn as [|r reqs Hr Hn IH]; intros w [Hc Haw]; [done|].
  cbn [mbind list_bind]. unfold run. rewrite foldl_app. apply IH.
  by apply request_coherent.
Qed.

End WithVerifier.
End Sequential.


(** ** Queries *)

Module Queries.
Import Attempts Store Realtime Notions.

(** The rows of a LEFT JOIN. *)
Lemma elem_of_left_join {A B} (on : A → B → bool) (l : list A) (r : list B)
    (a : A) (ob : option B) :
  (a, ob) ∈ left_join on l r ↔
  a ∈ l ∧ match ob with
          | Some b => b ∈ r ∧ on a b = true
          | None => ∀ b, b ∈ r → on a b ≠ true
          end.
Proof.
  unfold left_join. rewrite list_elem_of_bind. split.
  - intros (a' & Hin & Ha').
    destruct (filter (λ b, on a' b = true) r) as [|b0 bs] eqn:Hf.
    + apply list_elem_of_singleton in Hin. injection Hin as -> ->.
      split; [done|]. intros b Hb Hon.
      assert (b ∈ filter (λ b, on a' b = true) r) as Hbf
        by (apply list_elem_of_filter; done).
      rewrite Hf in Hbf. by apply not_elem_of_nil in Hbf.
    + apply list_elem_of_fmap in Hin as (b & Heq & Hb).
      injection Heq as -> ->. split; [done|].
      rewrite <- Hf in Hb. apply list_elem_of_filter in Hb as [Hon Hb]. done.
  - intros [Ha Hob]. exists a. split; [|done].
    destruct ob as [b|].
    + destruct Hob as [Hb Hon].
      assert (b ∈ filter (λ b, on a b = true) r) as Hbf
        by (apply list_elem_of_filter; done).
      destruct (filter (λ b, on a b = true) r) as [|b0 bs];
        [by apply not_elem_of_nil in Hbf|].
      apply list_elem_of_fmap. by exists b.
    + destruct (filter (λ b, on a b = true) r) as [|b0 bs] eqn:Hf;
        [by apply list_elem_of_singleton|].
      assert (b0 ∈ filter (λ b, on a b = true) r) as Hbf by (rewrite Hf; by left).
      apply list_elem_of_filter in Hbf as [Hon Hb0].
      by destruct (Hob b0 Hb0).
Qed.

(** Every left row shows up in the join. *)
Lemma left_join_total {A B} (on : A → B → bool) (l : list A) (r : list B) (a : A) :
  a ∈ l → ∃ ob, (a, ob) ∈ left_join on l r.
Proof.
  intros Ha.
  destruct (filter (λ b, on a b = true) r) as [|b0 bs] eqn:Hf.
  - exists None. apply elem_of_left_join. split; [done|].
    intros b Hb Hon.
    assert (b ∈ filter (λ b, on a b = true) r) as Hbf
      by (apply list_elem_of_filter; done).
    rewrite Hf in Hbf. by apply not_elem_of_nil in Hbf.
  - exists (Some b0). apply elem_of_left_join. split; [done|].
    assert (b0 ∈ filter (λ b, on a b = true) r) as Hbf by (rewrite Hf; by left).
    apply list_elem_of_filter in Hbf as [? ?]. done.
Qed.

Lemma col_eq_true {B} (col : B → Z) (ob : option B) (v : Z) :
  col_eq col ob v = true ↔ ∃ b, ob = Some b ∧ col b = v.
Proof.
  unfold col_eq. destruct ob as [b|].
  - rewrite bool_decide_eq_true. split.
    + intros Hb. by exists b.
    + by intros (b' & [= <-] & Hb).
  - split; [done|]. by intros (b & Hb & _).
Qed.

(** The access check finds a row exactly for the participants and group
    members of the conversation. *)
Lemma select_access_member (d : database) (conversationId userId : Z) :
  select_access d conversationId userId ≠ [] ↔ member_of d conversationId userId.
Proof.
  unfold select_access, member_of, conversations_joined. split.
  - intros Hne.
    destruct (filter _ _) as [|row rows] eqn:Hf; [done|].
    assert (Hrow : row ∈ row :: rows) by by left.
    rewrite <- Hf in Hrow. apply list_elem_of_filter in Hrow as [[Hid Hor] Hrow].
    destruct row as [[c ocp] ogm]. cbn in Hid, Hor.
    apply elem_of_left_join in Hrow as [Hin Hgm].
    apply elem_of_left_join in Hin as [Hc Hcp].
    exists c. split; [done|]. split; [done|].
    apply orb_true_iff in Hor as [Hp|Hg].
    + left. apply col_eq_true in Hp as (cp & -> & Hu).
      destruct Hcp as [Hcp Hon]. apply bool_decide_eq_true in Hon.
      exists cp. done.
    + right. apply col_eq_true in Hg as (gm & -> & Hu).
      destruct Hgm as [Hgm Hon]. apply bool_decide_eq_true in Hon. cbn in Hon.
      exists gm. done.
  - intros (c & Hc & Hid & Hmem).
    assert (∃ row, row ∈ left_join
               (λ ccp gm, bool_decide (conv_group_id ccp.1 = Some (gm_group_id gm)))
               (left_join (λ c cp, bool_decide (conv_id c = cp_conversation_id cp))
                  (conversations d) (conversation_participants d))
               (group_members d) ∧
             conv_id row.1.1 = conversationId ∧
             (col_eq cp_user_id row.1.2 userId || col_eq gm_user_id row.2 userId) = true)
      as (row & Hrow & Hrid & Hror).
    { destruct Hmem as [(cp & Hcp & Hcid & Hu) | (gm & Hgm & Hgid & Hu)].
      - assert ((c, Some cp) ∈ left_join
                  (λ c cp, bool_decide (conv_id c = cp_conversation_id cp))
                  (conversations d) (conversation_participants d)) as Hin.
        { apply elem_of_left_join. split; [done|]. split; [done|].
          by apply bool_decide_eq_true. }
        destruct (left_join_total
                    (λ ccp gm, bool_decide (conv_group_id ccp.1 = Some (gm_group_id gm)))
                    _ (group_members d) _ Hin) as [ogm Hrow].
        exists (c, Some cp, ogm). split; [done|]. split; [done|].
        cbn. by rewrite bool_decide_eq_true_2.
      - destruct (left_join_total
                    (λ c cp, bool_decide (conv_id c = cp_conversation_id cp))
                    _ (conversation_participants d) _ Hc) as [ocp Hin].
        exists (c, ocp, Some gm). split.
        + apply elem_of_left_join. split; [done|]. split; [done|].
          by apply bool_decide_eq_true.
        + split; [done|]. cbn. rewrite (bool_decide_eq_true_2 _ Hu).
          by rewrite orb_true_r. }
    intros Hnil. apply fmap_nil_inv in Hnil.
    assert (row ∈ filter
              (λ row, conv_id row.1.1 = conversationId ∧
                      (col_eq cp_user_id row.1.2 userId || col_eq gm_user_id row.2 userId) = true)
              (left_join
                 (λ ccp gm, bool_decide (conv_group_id ccp.1 = Some (gm_group_id gm)))
                 (left_join (λ c cp, bool_decide (conv_id c = cp_conversation_id cp))
                    (conversations d) (conversation_participants d))
                 (group_members d))) as Hf
      by (apply list_elem_of_filter; done).
    rewrite Hnil in Hf. by apply not_elem_of_nil in Hf.
Qed.

End Queries.

(** ** The message router *)

Module Router.
Import Attempts Store Realtime Notions Frames Queries.

(** An event that lacks the conversation id or the content is answered
    with the 'required' error and nothing else happens. *)
Lemma send_incomplete (sid : string) (s : socket) (data : send_data) (w : world) :
  complete data = false →
  on_send_message sid s data w = emit (ToSocket sid) (error required_message) w.
Proof.
  unfold complete, on_send_message, handleSendMessage.
  destruct (sd_conversationId data) as [c|]; [|done].
  destruct (sd_content data) as [t|]; [|done].
  intros Hc.
  destruct (bool_decide (c = 0)); [done|].
  destruct (bool_decide (t = "")); [done|]. done.
Qed.

(** The access check with parameters that bind. *)
Lemma access_check_bound (d : database) (conversationId u : Z) :
  int4 conversationId = true → int4 u = true →
  access_check d conversationId u = Some (select_access d conversationId u).
Proof. unfold access_check. by intros -> ->. Qed.

(** A complete event whose access check finds no row is answered with the
    'access denied' error and nothing else happens. *)
Lemma send_denied (sid : string) (s : socket) (data : send_data) (w : world)
    (conversationId : Z) :
  complete data = true →
  sd_conversationId data = Some conversationId →
  int4 conversationId && int4 (userId s) = true →
  select_access (store w) conversationId (userId s) = [] →
  on_send_message sid s data w = emit (ToSocket sid) (error denied_message) w.
Proof.
  unfold complete, on_send_message, handleSendMessage.
  intros Hc Hid Hr Hacc. rewrite Hid in *.
  destruct (sd_content data) as [t|]; [|done].
  apply andb_true_iff in Hc as [Hc Ht].
  apply negb_true_iff in Hc, Ht. rewrite Hc, Ht. cbn [orb].
  unfold h_bind, try_query, access_check. rewrite Hr, Hacc. done.
Qed.

(** A complete event one of whose ids does not bind as an INTEGER makes
    the access check raise: the listener reports the failure and nothing
    else happens. *)
Lemma send_unbound (sid : string) (s : socket) (data : send_data) (w : world)
    (conversationId : Z) :
  complete data = true →
  sd_conversationId data = Some conversationId →
  int4 conversationId && int4 (userId s) = false →
  on_send_message sid s data w = emit (ToSocket sid) (error failed_message) w.
Proof.
  unfold complete, on_send_message, handleSendMessage.
  intros Hc Hid Hr. rewrite Hid in *.
  destruct (sd_content data) as [t|]; [|done].
  apply andb_true_iff in Hc as [Hc Ht].
  apply negb_true_iff in Hc, Ht. rewrite Hc, Ht. cbn [orb].
  unfold h_bind, try_query, access_check. rewrite Hr. done.
Qed.

(** C5 (amended): a send_message event naming a conversation of which the
    sender is neither a participant nor a group member persists nothing and
    fans nothing out; the only thing sent is one error event to the
    sender's own connection.  That error is 'Conversation ID and content
    are required' when the conversation id or the content is missing or
    empty; otherwise it is 'access denied' when the conversation id and the
    sender's user id lie in the range of the INTEGER columns they are
    compared with, and 'Failed to send message' when one of them does not,
    because the access check then raises. *)
Theorem C5_non_member_send_is_refused
    (sid : string) (s : socket) (data : send_data) (w : world) (conversationId : Z) :
  sd_conversationId data = Some conversationId →
  ¬ member_of (store w) conversationId (userId s) →
  store (on_send_message sid s data w) = store w ∧
  log (on_send_message sid s data w) =
    log w ++ [Emit (ToSocket sid) [sid]
                (error (if complete data
                        then if int4 conversationId && int4 (userId s)
                             then denied_message else failed_message
                        else required_message))].
Proof.
  intros Hid Hnm.
  destruct (complete data) eqn:Hc.
  - destruct (int4 conversationId && int4 (userId s)) eqn:Hr.
    + rewrite (send_denied sid s data w conversationId Hc Hid Hr).
      * by destruct w.
      * destruct (select_access (store w) conversationId (userId s)) eqn:Hacc; [done|].
        exfalso. apply Hnm. apply select_access_member. by rewrite Hacc.
    + rewrite (send_unbound sid s data w conversationId Hc Hid Hr). by destruct w.
  - rewrite (send_incomplete sid s data w Hc). by destruct w.
Qed.

Lemma select_sender_exists (d : database) (u : Z) :
  user_exists d u = true → ∃ r rs, select_sender d u = r :: rs ∧ u_id r = u.
Proof.
  unfold user_exists, select_sender. intros Hu.
  apply bool_decide_eq_true in Hu. apply list_elem_of_fmap in Hu as (r & -> & Hr).
  assert (r ∈ filter (λ x, u_id x = u_id r) (users d)) as Hf
    by (apply list_elem_of_filter; done).
  destruct (filter (λ x, u_id x = u_id r) (users d)) as [|r0 rs] eqn:Hfl;
    [by apply not_elem_of_nil in Hf|].
  exists r0, rs. split; [done|].
  assert (r0 ∈ filter (λ x, u_id x = u_id r) (users d)) as Hf0 by (rewrite Hfl; by left).
  by apply list_elem_of_filter in Hf0 as [? _].
Qed.

Lemma member_conversation_exists (d : database) (conversationId u : Z) :
  member_of d conversationId u → conversation_exists d conversationId = true.
Proof.
  intros (c & Hc & Hid & _). unfold conversation_exists.
  apply bool_decide_eq_true. apply list_elem_of_fmap. by exists c.
Qed.

(** What an accepted INSERT has checked. *)
Lemma accepted_checks (s : socket) (data : send_data) (conversationId : Z)
    (content : string) (d : database) :
  accepted s data conversationId content d = true →
  int4 conversationId && int4 (userId s) = true ∧
  user_exists d (userId s) = true ∧
  insert_message d conversationId (userId s) content
    (default "text" (sd_messageType data)) (sd_replyTo data)
  = (Some (messages_id_seq d, db_now d),
     add_message (row_of s data conversationId content d) d).
Proof.
  unfold accepted, insert_message, row_of. intros Ha.
  apply andb_true_iff in Ha as [Hruns Hcons]. rewrite Hruns, Hcons.
  split_and!; [| |done].
  - unfold insert_runs in Hruns.
    repeat match type of Hruns with
           | (_ && _ = true) => apply andb_true_iff in Hruns as [Hruns ?]
           end.
    by apply andb_true_iff.
  - unfold constraints_hold in Hcons. cbn [m_sender_id new_row] in Hcons.
    repeat match type of Hcons with
           | (_ && _ = true) => apply andb_true_iff in Hcons as [Hcons ?]
           end.
    done.
Qed.

(** A complete event of a member whose row the store accepts: the row is
    inserted, the payload is emitted to the room, the conversation is
    touched. *)
Lemma send_accepted (sid : string) (s : socket) (data : send_data) (w : world)
    (conversationId : Z) (content : string) :
  sd_conversationId data = Some conversationId → conversationId ≠ 0 →
  sd_content data = Some content → content ≠ "" →
  member_of (store w) conversationId (userId s) →
  accepted s data conversationId content (store w) = true →
  ∃ sender,
    on_send_message sid s data w =
      set_store (λ d, touch_conversation d conversationId)
        (emit (ToRoom (conversation_room conversationId))
           (new_message (payload_of sender data
                           (row_of s data conversationId content (store w))))
           (set_store (λ _, add_message (row_of s data conversationId content (store w))
                              (store w)) w)).
Proof.
  intros Hid Hnz Hct Hne Hmem Hacc.
  destruct (accepted_checks _ _ _ _ _ Hacc) as (Hr & Hu & Hins).
  unfold on_send_message, handleSendMessage. rewrite Hid, Hct.
  rewrite !bool_decide_eq_false_2 by done. cbn [orb].
  unfold h_bind at 1. unfold try_query at 1. unfold access_check. rewrite Hr.
  apply select_access_member in Hmem.
  destruct (select_access (store w) conversationId (userId s)) as [|x xs] eqn:Hsel;
    [done|]. cbn [length]. rewrite bool_decide_eq_false_2 by done.
  unfold h_bind at 1. unfold execute. rewrite Hins.
  unfold h_bind at 1. unfold query.
  match goal with |- context [select_sender (store (set_store ?f w)) ?u] =>
    replace (select_sender (store (set_store f w)) u)
      with (select_sender (store w) u) by (by destruct w) end.
  destruct (select_sender_exists _ _ Hu) as (r & rs & -> & _).
  exists r. unfold h_bind, first_row, h_ret, act. reflexivity.
Qed.

(** C8: a complete send_message event of a member of the conversation,
    whose row the store accepts, is persisted once and emitted once to the
    room of the conversation.  With three connections subscribed to that
    room, the sender's among them, this makes three deliveries, one to each
    subscribed connection, of one and the same new_message event, whose id
    and createdAt are those of the persisted row. *)
Theorem C8_fan_out_to_three_subscribers
    (sid : string) (s : socket) (data : send_data) (w : world)
    (conversationId : Z) (content : string) (subscribers : gset string) :
  sd_conversationId data = Some conversationId → conversationId ≠ 0 →
  sd_content data = Some content → content ≠ "" →
  member_of (store w) conversationId (userId s) →
  accepted s data conversationId content (store w) = true →
  members w (conversation_room conversationId) = subscribers →
  size subscribers = 3%nat → sid ∈ subscribers →
  ∃ md row,
    deliveries (log (on_send_message sid s data w)) =
      deliveries (log w) ++ ((λ r, (r, new_message md)) <$> elements subscribers) ∧
    length ((λ r, (r, new_message md)) <$> elements subscribers) = 3%nat ∧
    NoDup (elements subscribers) ∧
    (sid, new_message md) ∈ ((λ r, (r, new_message md)) <$> elements subscribers) ∧
    messages (store (on_send_message sid s data w)) = messages (store w) ++ [row] ∧
    md_id md = m_id row ∧ md_createdAt md = m_created_at row.
Proof.
  intros Hid Hnz Hct Hne Hmem Hacc Hsub Hsize Hsid.
  destruct (send_accepted sid s data w conversationId content
              Hid Hnz Hct Hne Hmem Hacc) as [sender ->].
  set (row := row_of s data conversationId content (store w)).
  exists (payload_of sender data row), row.
  split_and!.
  - match goal with |- deliveries (log ?x) = _ =>
      assert (log x = log w ++ [Emit (ToRoom (conversation_room conversationId))
                                  (elements subscribers)
                                  (new_message (payload_of sender data row))]) as ->
        by (subst subscribers; by destruct w) end.
    unfold deliveries. rewrite bind_app. f_equal. cbn. by rewrite app_nil_r.
  - rewrite length_fmap. by rewrite <- Hsize.
  - apply NoDup_elements.
  - apply list_elem_of_fmap. exists sid. split; [done|]. by apply elem_of_elements.
  - by destruct w.
  - done.
  - done.
Qed.

End Router.

(** ** Read receipts *)

Module Receipts.
Import Attempts Store Realtime Notions Frames Queries.

Lemma set_store_set_store (f g : database → database) (w : world) :
  set_store f (set_store g w) = set_store (λ d, f (g d)) w.
Proof. by destruct w. Qed.

Lemma mark_read_frame (u : Z) (d : database) (m : Z) :
  users (mark_read u d m) = users d ∧
  messages (mark_read u d m) = messages d ∧
  db_now (mark_read u d m) = db_now d.
Proof. unfold mark_read. by destruct (read_marked d m u). Qed.

Lemma mark_all_frame (u : Z) (d : database) (ids : list Z) :
  users (mark_all u d ids) = users d ∧
  messages (mark_all u d ids) = messages d ∧
  db_now (mark_all u d ids) = db_now d.
Proof.
  unfold mark_all. revert d. induction ids as [|m ids IH]; intros d; [done|].
  cbn [foldl]. destruct (IH (mark_read u d m)) as (-> & -> & ->).
  apply mark_read_frame.
Qed.

(** On a store that knows the user and the messages, the upsert is
    [mark_read]. *)
Lemma insert_read_accepts (d : database) (m u : Z) :
  user_exists d u = true → message_exists d m = true →
  insert_read d m u = Some (mark_read u d m).
Proof.
  intros Hu Hm. unfold insert_read, mark_read. rewrite Hu, Hm. cbn [andb].
  by destruct (read_marked d m u).
Qed.

(** The loop over the ids of a mark_messages_read event. *)
Lemma for_each_marks (u : Z) (ids : list Z) (w : world) :
  user_exists (store w) u = true →
  Forall (λ m, message_exists (store w) m = true) ids →
  for_each (λ messageId,
              statement (λ d, (λ d', (d', ())) <$> insert_read d messageId u))
    ids w
  = (Some (), set_store (λ _, mark_all u (store w) ids) w).
Proof.
  revert w. induction ids as [|m ids IH]; intros w Hu Hall.
  - cbn. by destruct w.
  - apply Forall_cons in Hall as [Hm Hall].
    cbn [for_each]. unfold h_bind at 1. unfold statement at 1.
    rewrite (insert_read_accepts _ _ _ Hu Hm). cbn [fmap option_fmap option_map].
    destruct (mark_read_frame u (store w) m) as (Husers & Hmsgs & _).
    rewrite IH.
    + rewrite set_store_set_store. by destruct w.
    + replace (store (set_store (λ _, mark_read u (store w) m) w))
        with (mark_read u (store w) m) by (by destruct w).
      unfold user_exists in *. by rewrite Husers.
    + replace (store (set_store (λ _, mark_read u (store w) m) w))
        with (mark_read u (store w) m) by (by destruct w).
      unfold message_exists in *. by rewrite Hmsgs.
Qed.

(** A well-formed mark_messages_read event whose ids the store accepts:
    the markers are upserted, then one messages_read event goes to the
    other subscribers of the named room. *)
Lemma mark_accepted (sid : string) (s : socket) (data : read_data) (w : world)
    (conversationId : Z) (ids : list Z) :
  rd_conversationId data = Some conversationId → conversationId ≠ 0 →
  rd_messageIds data = Some ids →
  user_exists (store w) (userId s) = true →
  Forall (λ m, message_exists (store w) m = true) ids →
  on_mark_messages_read sid s data w =
    emit (ToRoomExcept (conversation_room conversationId) sid)
      (messages_read (userId s) ids conversationId)
      (set_store (λ _, mark_all (userId s) (store w) ids) w).
Proof.
  intros Hid Hnz Hids Hu Hall.
  unfold on_mark_messages_read, handleMarkMessagesRead. rewrite Hid, Hids.
  rewrite bool_decide_eq_false_2 by done.
  unfold h_bind. by rewrite (for_each_marks _ _ _ Hu Hall).
Qed.

Lemma read_keys_mark_read (u : Z) (d : database) (m : Z) :
  read_keys (mark_read u d m) =
    if read_marked d m u then read_keys d else read_keys d ++ [(m, u)].
Proof.
  unfold mark_read. destruct (read_marked d m u); [done|].
  unfold read_keys, add_read. cbn. by rewrite fmap_app.
Qed.

Lemma read_marked_spec (d : database) (m u : Z) :
  read_marked d m u = true ↔ (m, u) ∈ read_keys d.
Proof. unfold read_marked, read_keys. apply bool_decide_eq_true. Qed.

(** Upserting keeps the keys there were and leaves the key of every
    listed id. *)
Lemma mark_all_keys (u : Z) (ids : list Z) (d : database) :
  (∀ k, k ∈ read_keys d → k ∈ read_keys (mark_all u d ids)) ∧
  (∀ m, m ∈ ids → (m, u) ∈ read_keys (mark_all u d ids)).
Proof.
  unfold mark_all. revert d. induction ids as [|m ids IH]; intros d.
  - cbn. split; [done|]. intros m Hm. by apply not_elem_of_nil in Hm.
  - cbn [foldl].
    assert ((∀ k, k ∈ read_keys d → k ∈ read_keys (mark_read u d m)) ∧
            (m, u) ∈ read_keys (mark_read u d m)) as (Hkeep & Hnew).
    { rewrite read_keys_mark_read.
      destruct (read_marked d m u) eqn:Hrm.
      - split; [done|]. by apply read_marked_spec.
      - split.
        + intros k Hk. apply elem_of_app. by left.
        + apply elem_of_app. right. by apply list_elem_of_singleton. }
    destruct (IH (mark_read u d m)) as (H2 & H3).
    split.
    + intros k Hk. by apply H2, Hkeep.
    + intros m' Hm'. apply elem_of_cons in Hm' as [->|Hm']; [by apply H2|by apply H3].
Qed.

(** Upserting keeps the keys without duplicates. *)
Lemma mark_all_NoDup (u : Z) (ids : list Z) (d : database) :
  NoDup (read_keys d) → NoDup (read_keys (mark_all u d ids)).
Proof.
  unfold mark_all. revert d. induction ids as [|m ids IH]; intros d Hnd; [done|].
  cbn [foldl]. apply IH. rewrite read_keys_mark_read.
  destruct (read_marked d m u) eqn:Hrm; [done|].
  apply NoDup_app. split_and!; [done| |apply NoDup_singleton].
  intros k Hk Hk'. apply list_elem_of_singleton in Hk' as ->.
  apply read_marked_spec in Hk. congruence.
Qed.

(** Upserting ids that are all marked already changes nothing. *)
Lemma mark_all_again (u : Z) (ids : list Z) (d : database) :
  (∀ m, m ∈ ids → (m, u) ∈ read_keys d) → mark_all u d ids = d.
Proof.
  unfold mark_all. induction ids as [|m ids IH]; intros Hall; [done|].
  cbn [foldl]. unfold mark_read at 2.
  rewrite (proj2 (read_marked_spec d m u)) by (apply Hall; by left).
  apply IH. intros m' Hm'. apply Hall. by right.
Qed.

(** Without duplicate keys, a key that is there has exactly one row. *)
Lemma read_markers_one (d : database) (m u : Z) :
  NoDup (read_keys d) → (m, u) ∈ read_keys d →
  length (read_markers d m u) = 1%nat.
Proof.
  unfold read_keys, read_markers.
  induction (message_reads d) as [|r rs IH]; intros Hnd Hin.
  - by apply not_elem_of_nil in Hin.
  - cbn [fmap list_fmap] in Hnd, Hin. apply NoDup_cons in Hnd as [Hnotin Hnd].
    rewrite filter_cons. destruct (decide (r_message_id r = m ∧ r_user_id r = u)) as [[Hm Hu]|Hno].
    + cbn [length]. f_equal.
      destruct (filter _ rs) as [|r' rs'] eqn:Hf; [done|].
      exfalso. apply Hnotin.
      assert (r' ∈ filter (λ r, r_message_id r = m ∧ r_user_id r = u) rs) as Hr'
        by (rewrite Hf; by left).
      apply list_elem_of_filter in Hr' as [[Hm' Hu'] Hr'].
      apply list_elem_of_fmap. exists r'. split; [congruence|done].
    + apply IH; [done|].
      apply elem_of_cons in Hin as [Heq|Hin]; [|done].
      exfalso. apply Hno. by injection Heq as -> ->.
Qed.

(** C6 (amended): take a mark_messages_read event with a conversation id
    and a list of ids that are all ids of stored messages, from a
    connection whose user the store knows, on a table of read markers that
    respects its UNIQUE constraint.  Handling the event twice leaves exactly
    one read marker for each listed id and the user, the second handling
    changes nothing in the store, and each handling emits one messages_read
    event with the whole list to the other subscribers of the room: two
    emissions in all. *)
Theorem C6_marking_twice_persists_once_broadcasts_twice
    (sid : string) (s : socket) (data : read_data) (w : world)
    (conversationId : Z) (ids : list Z) :
  rd_conversationId data = Some conversationId → conversationId ≠ 0 →
  rd_messageIds data = Some ids →
  user_exists (store w) (userId s) = true →
  Forall (λ m, message_exists (store w) m = true) ids →
  NoDup (read_keys (store w)) →
  Forall (λ m, length (read_markers
                         (store (on_mark_messages_read sid s data
                                   (on_mark_messages_read sid s data w)))
                         m (userId s)) = 1%nat) ids ∧
  store (on_mark_messages_read sid s data (on_mark_messages_read sid s data w))
    = store (on_mark_messages_read sid s data w) ∧
  log (on_mark_messages_read sid s data (on_mark_messages_read sid s data w))
    = log w ++
      [Emit (ToRoomExcept (conversation_room conversationId) sid)
         (elements (members w (conversation_room conversationId) ∖ {[sid]}))
         (messages_read (userId s) ids conversationId);
       Emit (ToRoomExcept (conversation_room conversationId) sid)
         (elements (members w (conversation_room conversationId) ∖ {[sid]}))
         (messages_read (userId s) ids conversationId)].
Proof.
  intros Hid Hnz Hids Hu Hall Hnd.
  rewrite (mark_accepted sid s data w conversationId ids Hid Hnz Hids Hu Hall).
  set (d1 := mark_all (userId s) (store w) ids).
  set (w1 := emit _ _ _).
  assert (store w1 = d1) as Hst1 by (by destruct w).
  destruct (mark_all_frame (userId s) (store w) ids) as (Husers & Hmsgs & _).
  destruct (mark_all_keys (userId s) ids (store w)) as (_ & Hkeys).
  rewrite (mark_accepted sid s data w1 conversationId ids Hid Hnz Hids).
  2:{ rewrite Hst1. unfold user_exists in *. subst d1. by rewrite Husers. }
  2:{ rewrite Hst1. unfold message_exists in *. subst d1. by rewrite Hmsgs. }
  rewrite Hst1, (mark_all_again (userId s) ids d1 Hkeys).
  split_and!.
  - apply Forall_forall. intros m Hm.
    replace (store (emit (ToRoomExcept (conversation_room conversationId) sid)
                      (messages_read (userId s) ids conversationId)
                      (set_store (λ _, d1) w1))) with d1 by (by destruct w1).
    apply read_markers_one; [by apply mark_all_NoDup|by apply Hkeys].
  - by destruct w1.
  - subst w1. destruct w; cbn. by rewrite <- app_assoc.
Qed.

(** C10 (amended): no membership is asked of a mark_messages_read event.
    For every connection whose user the store knows, every conversation id
    and every list of ids of stored messages, whatever conversations those
    messages belong to and whether or not the user takes part in them, a
    read marker of the user is left for each listed id, and one
    messages_read event with the list as received is emitted to the
    subscribers of the named room other than the sender. *)
Theorem C10_marking_asks_no_membership
    (sid : string) (s : socket) (data : read_data) (w : world)
    (conversationId : Z) (ids : list Z) :
  rd_conversationId data = Some conversationId → conversationId ≠ 0 →
  rd_messageIds data = Some ids →
  user_exists (store w) (userId s) = true →
  Forall (λ m, message_exists (store w) m = true) ids →
  Forall (λ m, (m, userId s) ∈ read_keys (store (on_mark_messages_read sid s data w))) ids ∧
  log (on_mark_messages_read sid s data w)
    = log w ++
      [Emit (ToRoomExcept (conversation_room conversationId) sid)
         (elements (members w (conversation_room conversationId) ∖ {[sid]}))
         (messages_read (userId s) ids conversationId)] ∧
  sid ∉ elements (members w (conversation_room conversationId) ∖ {[sid]}).
Proof.
  intros Hid Hnz Hids Hu Hall.
  rewrite (mark_accepted sid s data w conversationId ids Hid Hnz Hids Hu Hall).
  destruct (mark_all_keys (userId s) ids (store w)) as (_ & Hkeys).
  split_and!.
  - apply Forall_forall. intros m Hm.
    replace (store (emit (ToRoomExcept (conversation_room conversationId) sid)
                      (messages_read (userId s) ids conversationId)
                      (set_store (λ _, mark_all (userId s) (store w) ids) w)))
      with (mark_all (userId s) (store w) ids) by (by destruct w).
    by apply Hkeys.
  - by destruct w.
  - rewrite elem_of_elements, elem_of_difference, elem_of_singleton.
    by intros [_ Hne].
Qed.

End Receipts.

(** ** The router and the receipts on the concrete deployment *)

Module Scenarios.
Import Attempts Store Realtime Notions Frames Queries Router Receipts.

(** C5 (counterexample): carol, connected as "x1", is no member of
    conversation 42.  Her send_message event with an empty content is
    answered with 'Conversation ID and content are required', not with
    'access denied'. *)
Lemma C5_empty_content_is_not_access_denied :
  let w := Demo.three_in_room in
  let data := SendData (Some 42) (Some "") None None in
  sockets w !! "x1" = Some (Socket 3 "carol") ∧
  ¬ member_of (store w) 42 3 ∧
  log (step Demo.verify w (SendMessage "x1" data))
    = log w ++ [Emit (ToSocket "x1") ["x1"] (error required_message)] ∧
  required_message ≠ denied_message.
Proof.
  cbv zeta. split_and!.
  - evaluate.
  - intros Hm. apply select_access_member in Hm. by vm_compute in Hm.
  - evaluate.
  - discriminate.
Qed.

Lemma C5_non_member_witness :
  let w := Demo.three_in_room in
  let data := SendData (Some 42) (Some "hello") None None in
  store (on_send_message "x1" (Socket 3 "carol") data w) = store w ∧
  log (on_send_message "x1" (Socket 3 "carol") data w)
    = log w ++ [Emit (ToSocket "x1") ["x1"] (error denied_message)].
Proof.
  cbv zeta.
  apply (C5_non_member_send_is_refused "x1" (Socket 3 "carol")
           (SendData (Some 42) (Some "hello") None None) Demo.three_in_room 42).
  - reflexivity.
  - intros Hm. apply select_access_member in Hm. by vm_compute in Hm.
Defined.

(** alice sends "hi there" to conversation 42, to whose room "a1", "b1"
    and "x1" are subscribed. *)
Lemma C8_fan_out_witness :
  elements (members Demo.three_in_room (conversation_room 42)) = ["a1"; "b1"; "x1"] ∧
  ∃ md row,
    deliveries (log (on_send_message "a1" (Socket 1 "alice")
                       (SendData (Some 42) (Some "hi there") None None)
                       Demo.three_in_room)) =
      deliveries (log Demo.three_in_room) ++
      ((λ r, (r, new_message md)) <$>
         elements (members Demo.three_in_room (conversation_room 42))) ∧
    messages (store (on_send_message "a1" (Socket 1 "alice")
                       (SendData (Some 42) (Some "hi there") None None)
                       Demo.three_in_room))
      = messages (store Demo.three_in_room) ++ [row] ∧
    md_id md = m_id row ∧ md_createdAt md = m_created_at row.
Proof.
  split; [evaluate|].
  destruct (C8_fan_out_to_three_subscribers "a1" (Socket 1 "alice")
              (SendData (Some 42) (Some "hi there") None None)
              Demo.three_in_room 42 "hi there"
              (members Demo.three_in_room (conversation_room 42)))
    as (md & row & H1 & _ & _ & _ & H2 & H3 & H4).
  - reflexivity.
  - done.
  - reflexivity.
  - done.
  - apply select_access_member. by vm_compute.
  - evaluate.
  - reflexivity.
  - evaluate.
  - apply elem_of_elements. vm_compute. by left.
  - exists md, row. split; [exact H1|]. split; [exact H2|]. split; [exact H3|exact H4].
Defined.

(** What the store does not take, on the deployment: carol names a
    conversation id beyond the INTEGER range and the access check raises;
    alice, a member, sends a message type of 21 characters and the INSERT
    raises before it runs; alice sends a type of 20 characters and a
    trailing space, which is stored cut to 20 and emitted as she gave it. *)
Lemma what_the_store_refuses :
  let w := Demo.three_in_room in
  on_send_message "x1" (Socket 3 "carol")
    (SendData (Some 2147483648) (Some "hello") None None) w
    = emit (ToSocket "x1") (error failed_message) w ∧
  on_send_message "a1" (Socket 1 "alice")
    (SendData (Some 42) (Some "hello") (Some "abcdefghijklmnopqrstu") None) w
    = emit (ToSocket "a1") (error failed_message) w ∧
  (m_message_type <$>
     last (messages (store (on_send_message "a1" (Socket 1 "alice")
             (SendData (Some 42) (Some "hello") (Some "abcdefghijklmnopqrst ") None) w)))
   = Some "abcdefghijklmnopqrst" ∧
   ∃ md, last (deliveries (log (on_send_message "a1" (Socket 1 "alice")
             (SendData (Some 42) (Some "hello") (Some "abcdefghijklmnopqrst ") None) w)))
         = Some ("x1", new_message md) ∧
         md_messageType md = "abcdefghijklmnopqrst ").
Proof.
  cbv zeta. split_and!; try evaluate.
  eexists. split; [vm_compute; reflexivity|reflexivity].
Qed.

(** C6 (counterexample): alice marks the ids 7 and 999 of which only 7 is a
    stored message, twice.  The store refuses 999 each time: there is no
    read marker for 999 and nothing is emitted at all. *)
Lemma C6_unknown_id_no_broadcast :
  let w := Demo.three_in_room in
  let data := ReadData (Some 42) (Some [7; 999]) in
  let twice := step Demo.verify (step Demo.verify w (MarkMessagesRead "a1" data))
                 (MarkMessagesRead "a1" data) in
  sockets w !! "a1" = Some (Socket 1 "alice") ∧
  read_markers (store twice) 7 1 = [ReadRow 7 1 500] ∧
  read_markers (store twice) 999 1 = [] ∧
  log twice = log w.
Proof. cbv zeta. split_and!; evaluate. Qed.

Lemma C6_marking_twice_witness :
  let w := Demo.three_in_room in
  let data := ReadData (Some 42) (Some [7]) in
  length (read_markers
            (store (on_mark_messages_read "b1" (Socket 2 "bob") data
                      (on_mark_messages_read "b1" (Socket 2 "bob") data w)))
            7 2) = 1%nat ∧
  length (log (on_mark_messages_read "b1" (Socket 2 "bob") data
                 (on_mark_messages_read "b1" (Socket 2 "bob") data w)))
    = S (S (length (log w))).
Proof.
  cbv zeta.
  destruct (C6_marking_twice_persists_once_broadcasts_twice "b1" (Socket 2 "bob")
              (ReadData (Some 42) (Some [7])) Demo.three_in_room 42 [7])
    as (H1 & _ & H2).
  - reflexivity.
  - done.
  - reflexivity.
  - evaluate.
  - apply Forall_cons. split; [evaluate|apply Forall_nil; exact I].
  - vm_compute. apply NoDup_nil. exact I.
  - split.
    + apply Forall_cons in H1 as [H1 _]. exact H1.
    + rewrite H2, length_app. cbn. lia.
Defined.

(** C10 (counterexample): carol marks the id 999, which is no stored
    message.  The store refuses the insert: no read marker is left and no
    messages_read event is emitted. *)
Lemma C10_unknown_id_is_not_marked :
  let w := Demo.three_in_room in
  let data := ReadData (Some 42) (Some [999]) in
  let w' := step Demo.verify w (MarkMessagesRead "x1" data) in
  sockets w !! "x1" = Some (Socket 3 "carol") ∧
  read_markers (store w') 999 3 = [] ∧
  log w' = log w.
Proof. cbv zeta. split_and!; evaluate. Qed.

(** carol, no member of conversation 42, marks message 7 of that
    conversation and names the room of conversation 42: the marker is
    written and alice and bob are told. *)
Lemma C10_no_membership_witness :
  let w := Demo.three_in_room in
  let data := ReadData (Some 42) (Some [7]) in
  let w' := on_mark_messages_read "x1" (Socket 3 "carol") data w in
  select_access (store w) 42 3 = [] ∧
  (7, 3) ∈ read_keys (store w') ∧
  log w' = log w ++
    [Emit (ToRoomExcept (conversation_room 42) "x1")
       (elements (members w (conversation_room 42) ∖ {[ "x1" ]}))
       (messages_read 3 [7] 42)].
Proof.
  cbv zeta. split; [evaluate|].
  destruct (C10_marking_asks_no_membership "x1" (Socket 3 "carol")
              (ReadData (Some 42) (Some [7])) Demo.three_in_room 42 [7])
    as (H1 & H2 & _).
  - reflexivity.
  - done.
  - reflexivity.
  - evaluate.
  - apply Forall_cons. split; [evaluate|apply Forall_nil; exact I].
  - split; [|exact H2]. apply Forall_cons in H1 as [H1 _]. exact H1.
Defined.

End Scenarios.

(** ** More on the rate limiter *)

Module LimiterFacts.
Import Attempts Store Realtime Notions Facts Frames Limiter.

(** The three ways an attempt can go. *)
Lemma rate_limit_cases (ca : gmap Z attempt) (u now : Z) :
  (∃ a, ca !! u = Some a ∧ blocked a = true ∧
        now - lastAttempt a < BLOCK_DURATION ∧
        rate_limit ca u now = (TooMany, ca)) ∨
  (∃ c, rate_limit ca u now = (TooMany, <[u := Attempt c now true]> ca) ∧
        c > MAX_ATTEMPTS ∧
        c = (if blocked (get_attempts ca u) then 0 else count (get_attempts ca u)) + 1) ∨
  (∃ c, rate_limit ca u now = (Pass, <[u := Attempt c now false]> ca) ∧
        (c = 1 ∨
         (c = (if blocked (get_attempts ca u) then 0 else count (get_attempts ca u)) + 1 ∧
          c <= MAX_ATTEMPTS))).
Proof.
  unfold rate_limit.
  assert (Hget : get_attempts ca u = default (Attempt 0 0 false) (ca !! u)) by done.
  destruct (get_attempts ca u) as [c l b]. cbn [blocked lastAttempt count].
  destruct b; cbn [andb].
  - case_bool_decide as Hin.
    + left. exists (Attempt c l true).
      destruct (ca !! u) as [a|]; cbn in Hget; [|discriminate]. subst a.
      by split_and!.
    + rewrite (bool_decide_eq_true_2 (now - l >= BLOCK_DURATION)) by lia.
      cbn [blocked lastAttempt count].
      case_bool_decide as Hw.
      * case_bool_decide as Hm.
        -- right. left. exists (0 + 1). cbn in *; by split_and!.
        -- right. right. exists (0 + 1). split; [done|]. right. split; [done|cbn in *; lia].
      * right. right. exists 1. split; [done|]. by left.
  - case_bool_decide as Hw.
    + case_bool_decide as Hm.
      * right. left. exists (c + 1). cbn in *. by split_and!.
      * right. right. exists (c + 1). split; [done|]. right. split; [done|cbn in *; lia].
    + right. right. exists 1. split; [done|]. by left.
Qed.

(** The limiter reads and writes the record of its user only. *)
Lemma rate_limit_local (ca ca' : gmap Z attempt) (u now : Z) :
  ca !! u = ca' !! u →
  (rate_limit ca u now).1 = (rate_limit ca' u now).1 ∧
  (rate_limit ca u now).2 !! u = (rate_limit ca' u now).2 !! u.
Proof.
  intros He. unfold rate_limit, get_attempts. rewrite <- He.
  repeat (case_match || case_bool_decide); cbn [fst snd];
    by rewrite ?lookup_insert_eq.
Qed.

(** X1: the limiter refuses an attempt exactly when it leaves the record
    of the user blocked; an attempt it lets pass leaves the record
    unblocked and stamped with the time of the attempt. *)
Theorem refusal_iff_blocked (ca : gmap Z attempt) (u now : Z) :
  ((rate_limit ca u now).1 = TooMany ↔
   ∃ a, (rate_limit ca u now).2 !! u = Some a ∧ blocked a = true) ∧
  ((rate_limit ca u now).1 = Pass ↔
   ∃ a, (rate_limit ca u now).2 !! u = Some a ∧ blocked a = false ∧
        lastAttempt a = now).
Proof.
  destruct (rate_limit_cases ca u now)
    as [(a & Ha & Hb & _ & ->)|[(c & -> & _)|(c & -> & _)]]; cbn [fst snd].
  - split; split; try done.
    + intros _. by exists a.
    + intros (a' & Ha' & Hb' & _). congruence.
  - rewrite lookup_insert_eq. split; split; try done.
    + intros _. by eexists.
    + by intros (a' & [= <-] & Hb' & _).
  - rewrite lookup_insert_eq. split; split; try done.
    + by intros (a' & [= <-] & Hb').
    + intros _. by eexists.
Qed.

(** X4: an attempt of one user never changes what the limiter answers to
    another user. *)
Theorem other_user_unaffected (ca : gmap Z attempt) (u v t t' : Z) :
  u ≠ v →
  (rate_limit (rate_limit ca u t).2 v t').1 = (rate_limit ca v t').1 ∧
  (rate_limit (rate_limit ca u t).2 v t').2 !! v = (rate_limit ca v t').2 !! v.
Proof.
  intros Hne. apply rate_limit_local. by apply rate_limit_other.
Qed.

(** X3: the periodic clean-up cannot be observed through the limiter: at
    any time from the clean-up on, an attempt gets the same answer and
    leaves the same record as if no record had been dropped. *)
Theorem cleanup_is_transparent (ca : gmap Z attempt) (u now t : Z) :
  now <= t →
  (rate_limit (cleanup ca now) u t).1 = (rate_limit ca u t).1 ∧
  (rate_limit (cleanup ca now) u t).2 !! u = (rate_limit ca u t).2 !! u.
Proof.
  intros Ht.
  destruct (ca !! u) as [a|] eqn:Ha.
  2:{ apply rate_limit_local. unfold cleanup. rewrite map_lookup_filter, Ha. done. }
  destruct (decide (now - lastAttempt a > BLOCK_DURATION * 2)) as [Hidle|Hkeep].
  - assert (cleanup ca now !! u = None) as Hc.
    { unfold cleanup. rewrite map_lookup_filter, Ha. cbn.
      rewrite option_guard_False; [done|]. cbn. by intros H; apply H. }
    unfold rate_limit, get_attempts. rewrite Hc, Ha.
    destruct a as [c l b].
    unfold BLOCK_DURATION, ATTEMPT_WINDOW, MAX_ATTEMPTS in *.
    cbn [from_option id blocked lastAttempt count] in *.
    destruct b; cbn [andb].
    + rewrite (bool_decide_eq_false_2 (t - l < 10000)) by lia.
      rewrite (bool_decide_eq_true_2 (t - l >= 10000)) by lia.
      cbn [blocked lastAttempt count andb].
      rewrite (bool_decide_eq_false_2 (t - l < 5000)) by lia.
      rewrite (bool_decide_eq_false_2 (0 + 1 > 3)) by lia.
      case_bool_decide; cbn [fst snd]; (split; [done|]);
        rewrite !lookup_insert_eq; reflexivity.
    + rewrite (bool_decide_eq_false_2 (t - l < 5000)) by lia.
      rewrite (bool_decide_eq_false_2 (0 + 1 > 3)) by lia.
      case_bool_decide; cbn [fst snd]; (split; [done|]);
        rewrite !lookup_insert_eq; reflexivity.
  - apply rate_limit_local. unfold cleanup. rewrite map_lookup_filter, Ha. cbn.
    by rewrite option_guard_True.
Qed.

End LimiterFacts.

(** ** What every step leaves alone *)

Module Steps.
Import Attempts Store Realtime Notions Facts Frames Limiter Admission LimiterFacts.

(** *** The store only grows *)

Lemma store_grows_refl (d : database) : store_grows d d.
Proof. unfold store_grows. by split_and!. Qed.

Lemma store_grows_trans (d1 d2 d3 : database) :
  store_grows d1 d2 → store_grows d2 d3 → store_grows d1 d3.
Proof.
  intros (A1 & A2 & A3 & A4 & A5 & A6 & A7 & A8 & A9) (B1 & B2 & B3 & B4 & B5 & B6 & B7 & B8 & B9).
  unfold store_grows. split_and!; try congruence; by etrans.
Qed.

Lemma update_status_grows (d : database) (st : string) (u : Z) :
  store_grows d (update_status d st u).
Proof.
  unfold store_grows, update_status, with_users. cbn. split_and!; try done.
  rewrite <- list_fmap_compose. apply list_fmap_ext. intros i x _. cbn.
  by destruct (bool_decide (u_id x = u) && negb (bool_decide (u_status x = st))).
Qed.

Lemma touch_conversation_grows (d : database) (c : Z) :
  store_grows d (touch_conversation d c).
Proof.
  unfold store_grows, touch_conversation, with_conversations. cbn. split_and!; try done.
  rewrite <- list_fmap_compose. apply list_fmap_ext. intros i x _. cbn.
  by destruct (bool_decide (conv_id x = c)).
Qed.

Lemma add_message_grows (d : database) (m : message_row) :
  store_grows d (add_message m d).
Proof.
  unfold store_grows, add_message. cbn. split_and!; try done.
  by apply prefix_app_r.
Qed.

Lemma add_read_grows (d : database) (r : read_row) :
  store_grows d (add_read r d).
Proof.
  unfold store_grows, add_read. cbn. split_and!; try done.
  by apply prefix_app_r.
Qed.

Lemma insert_read_grows (d d' : database) (m u : Z) :
  insert_read d m u = Some d' → store_grows d d'.
Proof.
  unfold insert_read. repeat case_match; intros [= <-];
    [apply store_grows_refl | apply add_read_grows].
Qed.

(** Only the log differs. *)
Lemma broadcast_frame (u : Z) (st : string) (w : world) :
  connectionAttempts (broadcastUserStatus u st w) = connectionAttempts w ∧
  store (broadcastUserStatus u st w) = store w ∧
  rooms (broadcastUserStatus u st w) = rooms w.
Proof.
  destruct (broadcast_only_logs u st w) as [l ->]. by destruct w.
Qed.

Lemma close_socket_frame (sid : string) (w : world) :
  connectionAttempts (close_socket sid w) = connectionAttempts w ∧
  store_grows (store w) (store (close_socket sid w)).
Proof.
  destruct (sockets w !! sid) as [s|] eqn:Hs.
  - destruct (close_socket_fields sid s w Hs) as (_ & _ & -> & _ & _ & -> & _).
    split; [done|apply update_status_grows].
  - unfold close_socket. rewrite Hs. split; [done|apply store_grows_refl].
Qed.

Lemma evict_existing_store (sid : string) (u : Z) (w : world) :
  store_grows (store w) (store (evict_existing sid u w)).
Proof.
  unfold evict_existing.
  destruct (connectedUsers w !! u) as [old|]; [|apply store_grows_refl].
  destruct (truthy old && negb (bool_decide (old = sid))); [|apply store_grows_refl].
  destruct (sockets w !! old) as [s|] eqn:Hs.
  - unfold disconnect_forced.
    destruct (close_socket_frame old (set_log (λ l, l ++ [ForcedClose old]) w)) as [_ Hg].
    set (w1 := close_socket old _) in *. clearbody w1.
    replace (store (set_userSockets (delete old) (set_connectedUsers (delete u) w1)))
      with (store w1) by (by destruct w1).
    by destruct w.
  - destruct w; apply store_grows_refl.
Qed.

Lemma on_connection_frame (sid : string) (s : socket) (w : world) :
  store (on_connection sid s w) = update_status (store w) "online" (userId s).
Proof.
  unfold on_connection, joinUserConversations.
  match goal with |- context [foldl ?f ?x ?l] =>
    assert (Hf : ∀ l' x', store (foldl f x' l') = store x')
  end.
  { induction l' as [|c l' IH]; intros x'; [done|].
    cbn [foldl]. rewrite IH. by destruct x'. }
  rewrite Hf.
  match goal with |- context [broadcastUserStatus ?u ?st ?x] =>
    destruct (broadcast_only_logs u st x) as [l ->] end.
  by destruct w.
Qed.

Lemma nextval_grows (d : database) : store_grows d (nextval d).
Proof. unfold store_grows, nextval. cbn. by split_and!. Qed.

Lemma insert_message_grows (d : database) (c u : Z) (content mt : string)
    (replyTo : option Z) :
  store_grows d (insert_message d c u content mt replyTo).2.
Proof.
  unfold insert_message. repeat case_match; cbn [snd];
    [apply add_message_grows|apply nextval_grows|apply store_grows_refl].
Qed.

Lemma send_frame (sid : string) (s : socket) (data : send_data) (w : world) :
  connectionAttempts (on_send_message sid s data w) = connectionAttempts w ∧
  store_grows (store w) (store (on_send_message sid s data w)).
Proof.
  unfold on_send_message, handleSendMessage, h_bind, query, try_query, execute, act,
    first_row, h_ret, throw.
  destruct (sd_conversationId data) as [c|];
    [|split; [by destruct w|destruct w; apply store_grows_refl]].
  destruct (sd_content data) as [t|];
    [|split; [by destruct w|destruct w; apply store_grows_refl]].
  destruct (bool_decide (c = 0) || bool_decide (t = ""));
    [split; [by destruct w|destruct w; apply store_grows_refl]|].
  destruct (access_check (store w) c (userId s)) as [rows|];
    [|split; [by destruct w|destruct w; apply store_grows_refl]].
  destruct (bool_decide (length rows = 0%nat));
    [split; [by destruct w|destruct w; apply store_grows_refl]|].
  pose proof (insert_message_grows (store w) c (userId s) t
                (default "text" (sd_messageType data)) (sd_replyTo data)) as Hg.
  destruct (insert_message (store w) c (userId s) t
              (default "text" (sd_messageType data)) (sd_replyTo data)) as [[m|] d'];
    cbn [snd] in Hg.
  - destruct (select_sender _ _) as [|r rs].
    + split; destruct w; cbn in *; done.
    + split; [by destruct w|].
      eapply store_grows_trans; [exact Hg|].
      destruct w; cbn. apply touch_conversation_grows.
  - split; destruct w; cbn in *; done.
Qed.

Lemma for_each_frame (u : Z) (ids : list Z) (w : world) :
  let r := for_each (λ messageId,
                       statement (λ d, (λ d', (d', ())) <$> insert_read d messageId u))
             ids w in
  connectionAttempts r.2 = connectionAttempts w ∧
  log r.2 = log w ∧ rooms r.2 = rooms w ∧
  store_grows (store w) (store r.2).
Proof.
  cbn zeta. revert w. induction ids as [|m ids IH]; intros w.
  - cbn. split_and!; try done; apply store_grows_refl.
  - destruct (for_each _ (m :: ids) w) as [o w2] eqn:E.
    cbn [for_each] in E. unfold h_bind, statement at 1 in E.
    destruct (insert_read (store w) m u) as [d'|] eqn:Hi;
      cbn [fmap option_fmap option_map] in E.
    + specialize (IH (set_store (λ _, d') w)). rewrite E in IH.
      destruct IH as (H1 & H2 & H3 & Hg). cbn [snd] in *.
      rewrite H1, H2, H3. split_and!; try by destruct w.
      eapply store_grows_trans; [|exact Hg].
      replace (store (set_store (λ _, d') w)) with d' by (by destruct w).
      by eapply insert_read_grows.
    + injection E as <- <-. cbn. split_and!; try done; apply store_grows_refl.
Qed.

Lemma mark_frame (sid : string) (s : socket) (data : read_data) (w : world) :
  connectionAttempts (on_mark_messages_read sid s data w) = connectionAttempts w ∧
  store_grows (store w) (store (on_mark_messages_read sid s data w)).
Proof.
  unfold on_mark_messages_read, handleMarkMessagesRead.
  destruct (rd_conversationId data) as [c|]; [|split; [done|apply store_grows_refl]].
  destruct (rd_messageIds data) as [ids|]; [|split; [done|apply store_grows_refl]].
  case_bool_decide; [split; [done|apply store_grows_refl]|].
  unfold h_bind.
  destruct (for_each_frame (userId s) ids w) as (Hca & _ & _ & Hg). cbn zeta in *.
  destruct (for_each _ ids w) as [[[]|] w1]; cbn [snd] in *; [|done].
  unfold act. cbn [snd]. split; by destruct w1.
Qed.

Section WithVerifier.
Variable jwt_verify : string → option (Z * string).

Lemma authenticate_frame (sid : string) (token : option string) (now : Z) (w : world) :
  (connectionAttempts (authenticate jwt_verify sid token now w).2 = connectionAttempts w ∨
   ∃ u, connectionAttempts (authenticate jwt_verify sid token now w).2
          = (rate_limit (connectionAttempts w) u now).2) ∧
  store_grows (store w) (store (authenticate jwt_verify sid token now w).2).
Proof.
  split.
  - destruct (credential jwt_verify token) as [[u name]|] eqn:Hc.
    + right. exists u. by destruct (authenticate_limited jwt_verify sid token now w u name Hc).
    + left. by destruct (authenticate_no_credential jwt_verify sid token now w Hc) as [-> _].
  - unfold authenticate. destruct token as [t|]; [|apply store_grows_refl].
    destruct (truthy t); cbn [negb]; [|apply store_grows_refl].
    destruct (jwt_verify t) as [[u name]|]; [|apply store_grows_refl].
    destruct (rate_limit (connectionAttempts w) u now) as [[|] ca]; cbn [snd].
    + match goal with |- store_grows _ (store (set_awaiting _ ?x)) =>
        replace (store (set_awaiting (<[sid := (u, name, t)]>) x)) with (store x)
          by (by destruct x) end.
      pose proof (evict_existing_store sid u (set_connectionAttempts (λ _, ca) w)) as Hg.
      by destruct w.
    + destruct w; apply store_grows_refl.
Qed.

Lemma session_reply_frame (sid : string) (w : world) :
  (connectionAttempts (session_reply sid w).2 = connectionAttempts w ∨
   ∃ u, connectionAttempts (session_reply sid w).2 = reset_attempts (connectionAttempts w) u) ∧
  store_grows (store w) (store (session_reply sid w).2).
Proof.
  unfold session_reply.
  destruct (awaiting w !! sid) as [[[u n] t]|]; [|split; [by left|apply store_grows_refl]].
  case_bool_decide; cbn [snd].
  - split; [left|]; destruct w; [done|apply store_grows_refl].
  - destruct (on_connection_fields sid (Socket u n) (set_awaiting (delete sid) w))
      as (_ & _ & ->).
    rewrite on_connection_frame. split.
    + right. exists u. by destruct w.
    + destruct w; apply update_status_grows.
Qed.

(** Every step changes the attempt records through the limiter, the reset
    on connection or the clean-up, and nothing else. *)
Lemma step_attempts (w : world) (i : input) :
  connectionAttempts (step jwt_verify w i) = connectionAttempts w ∨
  (∃ u now, connectionAttempts (step jwt_verify w i)
              = (rate_limit (connectionAttempts w) u now).2) ∨
  (∃ u, connectionAttempts (step jwt_verify w i) = reset_attempts (connectionAttempts w) u) ∨
  (∃ now, connectionAttempts (step jwt_verify w i) = cleanup (connectionAttempts w) now).
Proof.
  destruct i as [sid token now|sid|sid data|sid data|sid c|sid c|sid|now]; cbn [step].
  - destruct (authenticate_frame sid token now w) as [[H|[u H]] _]; [by left|].
    right. left. by exists u, now.
  - destruct (session_reply_frame sid w) as [[H|[u H]] _]; [by left|].
    right. right. left. by exists u.
  - left. unfold with_socket. destruct (sockets w !! sid); [|done].
    by destruct (send_frame sid s data w).
  - left. unfold with_socket. destruct (sockets w !! sid); [|done].
    by destruct (mark_frame sid s data w).
  - left. unfold with_socket. destruct (sockets w !! sid); [|done]. by destruct w.
  - left. unfold with_socket. destruct (sockets w !! sid); [|done]. by destruct w.
  - left. by destruct (close_socket_frame sid w).
  - right. right. right. exists now. by destruct w.
Qed.

Lemma step_store_grows (w : world) (i : input) :
  store_grows (store w) (store (step jwt_verify w i)).
Proof.
  destruct i as [sid token now|sid|sid data|sid data|sid c|sid c|sid|now]; cbn [step].
  - by destruct (authenticate_frame sid token now w).
  - by destruct (session_reply_frame sid w).
  - unfold with_socket. destruct (sockets w !! sid); [|apply store_grows_refl].
    by destruct (send_frame sid s data w).
  - unfold with_socket. destruct (sockets w !! sid); [|apply store_grows_refl].
    by destruct (mark_frame sid s data w).
  - unfold with_socket. destruct (sockets w !! sid); destruct w; apply store_grows_refl.
  - unfold with_socket. destruct (sockets w !! sid); destruct w; apply store_grows_refl.
  - by destruct (close_socket_frame sid w).
  - destruct w; apply store_grows_refl.
Qed.

(** X21: whatever the connections do, in whatever order, the socket handler
    never changes the contacts, the memberships or the sessions, never
    adds or removes a user or a conversation, and never removes or rewrites
    a message or a read marker: it only appends to the last two. *)
Theorem handler_only_appends (w : world) (trace : list input) :
  store_grows (store w) (store (run jwt_verify w trace)).
Proof.
  revert w. induction trace as [|i trace IH]; intros w; [apply store_grows_refl|].
  unfold run. cbn [foldl].
  eapply store_grows_trans; [apply step_store_grows|apply IH].
Qed.

Lemma rate_limit_sane (ca : gmap Z attempt) (u now : Z) :
  map_Forall (λ _ a, sane a) ca → map_Forall (λ _ a, sane a) (rate_limit ca u now).2.
Proof.
  intros Hs.
  assert (sane (get_attempts ca u)) as Hg.
  { unfold get_attempts. destruct (ca !! u) as [a|] eqn:Ha; [by apply (Hs u)|].
    unfold sane, MAX_ATTEMPTS. cbn. lia. }
  destruct (rate_limit_cases ca u now)
    as [(a & _ & _ & _ & ->)|[(c & -> & Hc & Heq)|(c & -> & Hc)]]; cbn [snd]; [done| |].
  - apply map_Forall_insert_2; [|done].
    unfold sane in *. cbn. destruct (blocked (get_attempts ca u)); unfold MAX_ATTEMPTS in *; lia.
  - apply map_Forall_insert_2; [|done].
    unfold sane in *. cbn. destruct (blocked (get_attempts ca u)); unfold MAX_ATTEMPTS in *; lia.
Qed.

Lemma reset_attempts_sane (ca : gmap Z attempt) (u : Z) :
  map_Forall (λ _ a, sane a) ca → map_Forall (λ _ a, sane a) (reset_attempts ca u).
Proof.
  intros Hs. unfold reset_attempts. destruct (ca !! u); [|done].
  apply map_Forall_insert_2; [|done]. unfold sane, MAX_ATTEMPTS. cbn. lia.
Qed.

Lemma cleanup_sane (ca : gmap Z attempt) (now : Z) :
  map_Forall (λ _ a, sane a) ca → map_Forall (λ _ a, sane a) (cleanup ca now).
Proof.
  intros Hs k a Hl. unfold cleanup in Hl.
  apply map_lookup_filter_Some in Hl as [Hl _]. by apply (Hs k).
Qed.

(** X2: in every state the handler can reach, every attempt record is
    either unblocked with a count between 0 and MAX_ATTEMPTS, or blocked
    with a count of MAX_ATTEMPTS + 1. *)
Theorem attempt_records_stay_sane (d : database) (trace : list input) :
  map_Forall (λ _ a, sane a) (connectionAttempts (run jwt_verify (initial d) trace)).
Proof.
  assert (map_Forall (λ _ a, sane a) (connectionAttempts (initial d))) as Hinit
    by (cbn; apply map_Forall_empty).
  revert Hinit. generalize (initial d) as w.
  induction trace as [|i trace IH]; intros w Hw; [done|].
  unfold run. cbn [foldl]. apply IH.
  destruct (step_attempts w i) as [->|[(u & now & ->)|[(u & ->)|(now & ->)]]];
    [done|by apply rate_limit_sane|by apply reset_attempts_sane|by apply cleanup_sane].
Qed.

End WithVerifier.
End Steps.

(** ** The session query, login and logout *)

Module SessionFacts.
Import Attempts Store Realtime Notions Facts Auth Queries.

Lemma nonempty_elem {A} (l : list A) : l ≠ [] ↔ ∃ x, x ∈ l.
Proof.
  destruct l as [|x l]; split; try done.
  - intros [x Hx]. by apply not_elem_of_nil in Hx.
  - intros _. exists x. by left.
Qed.

(** The rows of the session query, read off the LEFT JOIN and its WHERE. *)
Lemma select_user_session_spec (d : database) (u : Z) (tok : string) :
  select_user_session d u tok ≠ [] ↔
  u ∈ u_id <$> users d ∧
  ((∀ s, s ∈ user_sessions d → s_user_id s ≠ u) ∨
   (∃ s, s ∈ user_sessions d ∧ s_user_id s = u ∧
         s_token_hash s = tok ∧ s_expires_at s > db_now d)).
Proof.
  unfold select_user_session. rewrite nonempty_elem. split.
  - intros ([r os] & Hrow). apply list_elem_of_filter in Hrow as [Hok Hrow].
    apply elem_of_left_join in Hrow as [Hr Hos].
    apply list_elem_of_filter in Hr as [Hid Hr]. cbn in Hok.
    split; [apply list_elem_of_fmap; by exists r|].
    destruct os as [s|].
    + right. destruct Hos as [Hs Hon]. apply bool_decide_eq_true in Hon.
      cbn in Hok. apply andb_true_iff in Hok as [H1 H2].
      apply bool_decide_eq_true in H1, H2.
      exists s. split_and!; try done. congruence.
    + left. intros s Hs Hu. apply (Hos s Hs). apply bool_decide_eq_true. congruence.
  - intros [Hu Hcase]. apply list_elem_of_fmap in Hu as (r & -> & Hr).
    assert (r ∈ filter (λ x, u_id x = u_id r) (users d)) as Hrf
      by (by apply list_elem_of_filter).
    destruct Hcase as [Hnone|(s & Hs & Hsu & Htok & Hexp)].
    + exists (r, None). apply list_elem_of_filter. split; [done|].
      apply elem_of_left_join. split; [done|].
      intros s Hs Hon. apply bool_decide_eq_true in Hon. by apply (Hnone s Hs).
    + exists (r, Some s). apply list_elem_of_filter. split.
      * cbn. apply andb_true_iff. split; by apply bool_decide_eq_true.
      * apply elem_of_left_join. split; [done|]. split; [done|].
        by apply bool_decide_eq_true.
Qed.

(** X5: the session query of the middleware finds a row exactly when the
    user exists and either has no session row at all, or has a session row
    with this very token that has not expired.  A user with session rows
    under other tokens only is refused. *)
Theorem session_query_accepts (d : database) (u : Z) (tok : string) :
  select_user_session d u tok ≠ [] ↔
  u ∈ u_id <$> users d ∧
  ((∀ s, s ∈ user_sessions d → s_user_id s ≠ u) ∨
   (∃ s, s ∈ user_sessions d ∧ s_user_id s = u ∧
         s_token_hash s = tok ∧ s_expires_at s > db_now d)).
Proof. apply select_user_session_spec. Qed.

Lemma set_status_ids (d : database) (st : string) (u : Z) :
  u_id <$> users (set_status d st u) = u_id <$> users d.
Proof.
  unfold set_status, with_users. cbn.
  rewrite <- list_fmap_compose. apply list_fmap_ext. intros i x _. cbn.
  by destruct (bool_decide (u_id x = u)).
Qed.

(** X6: the token stored by a login opens the session check of the socket
    middleware for as long as its expiry lies ahead of the store's clock. *)
Theorem login_token_passes_session_check
    (d d' : database) (u : Z) (tok : string) (expires : Z) :
  login_statements d u tok expires = Some d' →
  expires > db_now d →
  select_user_session d' u tok ≠ [].
Proof.
  unfold login_statements, insert_session. intros Hl Hexp.
  destruct (user_exists (delete_expired_sessions d u) u) eqn:Hu; [|done].
  cbn in Hl. injection Hl as <-.
  apply select_user_session_spec. split.
  - rewrite set_status_ids. cbn. by apply bool_decide_eq_true in Hu.
  - right. exists (SessionRow u tok expires). cbn. split_and!; try done.
    apply elem_of_app. right. by apply list_elem_of_singleton.
Qed.

(** X7: after a logout the token still passes the session check of the
    socket middleware exactly when the user exists and has no session row
    under another token: the deleted row leaves a user without any session,
    whom the LEFT JOIN of the query lets through. *)
Theorem logout_token_still_passes (d : database) (u : Z) (tok : string) :
  select_user_session (logout_statements d u tok) u tok ≠ [] ↔
  u ∈ u_id <$> users d ∧ ¬ other_session d u tok.
Proof.
  rewrite select_user_session_spec. unfold logout_statements.
  rewrite set_status_ids. cbn.
  split.
  - intros [Hu Hcase]. split; [done|]. intros (s & Hs & Hsu & Hne).
    destruct Hcase as [Hnone|(s' & Hs' & Hsu' & Htok' & _)].
    + apply (Hnone s); [|done]. apply list_elem_of_filter. split; [|done].
      intros [_ ?]. done.
    + apply list_elem_of_filter in Hs' as [Hkeep _]. by apply Hkeep.
  - intros [Hu Hno]. split; [done|]. left. intros s Hs Hsu.
    apply list_elem_of_filter in Hs as [Hkeep Hs].
    apply Hno. exists s. split_and!; try done. intros Htok. by apply Hkeep.
Qed.

End SessionFacts.

(** ** Contacts and presence notices *)

Module PresenceFacts.
Import Attempts Store Realtime Notions Facts Frames.

Lemma select_contacts_spec (d : database) (u c : Z) :
  c ∈ select_contacts d u ↔ accepted_contact d u c.
Proof.
  unfold select_contacts, distinct, accepted_contact.
  rewrite elem_of_remove_dups, list_elem_of_fmap. split.
  - intros (row & -> & Hrow). apply list_elem_of_filter in Hrow as [[Hor Hst] Hrow].
    exists row. split; [done|]. split; [done|].
    case_bool_decide as Hu.
    + by left.
    + right. destruct Hor as [?|?]; [done|]. by split.
  - intros (row & Hrow & Hst & Hcase). exists row. split.
    + case_bool_decide as Hu.
      * destruct Hcase as [[_ ?]|[? ?]]; congruence.
      * destruct Hcase as [[? _]|[_ ?]]; [done|congruence].
    + apply list_elem_of_filter. split; [|done]. split; [|done].
      destruct Hcase as [[? _]|[? _]]; [by left|by right].
Qed.

(** X12: the contact relation the presence notices follow is symmetric: one
    user is among the contacts selected for the other exactly when the
    other is among the contacts selected for the first, whichever of the
    two sent the request. *)
Theorem contacts_are_mutual (d : database) (u c : Z) :
  c ∈ select_contacts d u ↔ u ∈ select_contacts d c.
Proof.
  rewrite !select_contacts_spec. unfold accepted_contact.
  split; intros (row & Hrow & Hst & Hcase); exists row;
    (split; [done|]); (split; [done|]); tauto.
Qed.

Lemma notice_step (u : Z) (st : string) (w0 w : world) (c : Z) :
  connectedUsers w = connectedUsers w0 → rooms w = rooms w0 →
  let w' := match connectedUsers w !! c with
            | Some contactSocketId =>
                if truthy contactSocketId
                then emit (ToRoom contactSocketId) (user_status_change u st) w
                else w
            | None => w
            end in
  connectedUsers w' = connectedUsers w0 ∧ rooms w' = rooms w0 ∧
  log w' = log w ++ option_list (notice w0 u st c).
Proof.
  intros Hcu Hro. cbn zeta. unfold notice. rewrite <- Hcu.
  destruct (connectedUsers w !! c) as [sid|];
    [|by rewrite app_nil_r].
  destruct (truthy sid); [|by rewrite app_nil_r].
  assert (recipients w0 (ToRoom sid) = recipients w (ToRoom sid)) as ->
    by (unfold recipients, members; by rewrite Hro).
  by destruct w.
Qed.

Lemma broadcast_log (u : Z) (st : string) (w0 : world) (cs : list Z) (w : world) :
  connectedUsers w = connectedUsers w0 → rooms w = rooms w0 →
  log (foldl (λ w contact_id,
                match connectedUsers w !! contact_id with
                | Some contactSocketId =>
                    if truthy contactSocketId
                    then emit (ToRoom contactSocketId) (user_status_change u st) w
                    else w
                | None => w
                end) w cs)
  = log w ++ omap (notice w0 u st) cs.
Proof.
  revert w. induction cs as [|c cs IH]; intros w Hcu Hro.
  - cbn. by rewrite app_nil_r.
  - cbn [foldl].
    destruct (notice_step u st w0 w c Hcu Hro) as (H1 & H2 & H3). cbn zeta in *.
    rewrite (IH _ H1 H2), H3, <- app_assoc. f_equal.
    cbn [omap list_omap]. by destruct (notice w0 u st c).
Qed.

(** X13: a status change is emitted once for every accepted contact of the
    user that [connectedUsers] knows, to the room of that contact's
    connection, and for nobody else. *)
Theorem broadcast_tells_connected_contacts (u : Z) (st : string) (w : world) :
  log (broadcastUserStatus u st w)
    = log w ++ omap (notice w u st) (select_contacts (store w) u) ∧
  NoDup (select_contacts (store w) u) ∧
  ∀ e, e ∈ omap (notice w u st) (select_contacts (store w) u) ↔
       ∃ c sid, accepted_contact (store w) u c ∧
                connectedUsers w !! c = Some sid ∧ sid ≠ "" ∧
                e = Emit (ToRoom sid) (elements (members w sid))
                      (user_status_change u st).
Proof.
  split_and!.
  - unfold broadcastUserStatus. by apply broadcast_log.
  - unfold select_contacts, distinct. apply NoDup_remove_dups.
  - intros e. rewrite list_elem_of_omap. split.
    + intros (c & Hc & Hn). apply select_contacts_spec in Hc.
      unfold notice in Hn. destruct (connectedUsers w !! c) as [sid|] eqn:Hs; [|done].
      unfold truthy in Hn. case_bool_decide as Hne; [done|]. cbn in Hn.
      injection Hn as <-. by exists c, sid.
    + intros (c & sid & Hc & Hs & Hne & ->). exists c.
      split; [by apply select_contacts_spec|].
      unfold notice, truthy. rewrite Hs. by rewrite bool_decide_eq_false_2.
Qed.

End PresenceFacts.

(** ** Rooms *)

Module RoomFacts.
Import Attempts Store Realtime Notions Facts Frames Queries Router.


Lemma select_user_conversations_spec (d : database) (c u : Z) :
  c ∈ select_user_conversations d u ↔ member_of d c u.
Proof.
  rewrite <- select_access_member.
  unfold select_user_conversations, select_access, distinct.
  rewrite elem_of_remove_dups, list_elem_of_fmap. split.
  - intros (row & -> & Hrow). apply list_elem_of_filter in Hrow as [Hor Hrow].
    intros Hnil. apply fmap_nil_inv in Hnil.
    assert (row ∈ filter
              (λ row0, conv_id row0.1.1 = conv_id row.1.1 ∧
                       (col_eq cp_user_id row0.1.2 u || col_eq gm_user_id row0.2 u) = true)
              (conversations_joined d)) as Hf
      by (apply list_elem_of_filter; done).
    rewrite Hnil in Hf. by apply not_elem_of_nil in Hf.
  - intros Hne.
    destruct (filter _ (conversations_joined d)) as [|row rows] eqn:Hf; [done|].
    assert (row ∈ row :: rows) as Hrow by by left.
    rewrite <- Hf in Hrow. apply list_elem_of_filter in Hrow as [[Hid Hor] Hrow].
    exists row. split; [done|]. by apply list_elem_of_filter.
Qed.

(** X14: the rooms a connection is put in when it connects are those of
    exactly the conversations the access check of send_message lets the
    user write to. *)
Theorem joined_rooms_match_access_check (d : database) (c u : Z) :
  c ∈ select_user_conversations d u ↔ select_access d c u ≠ [].
Proof. by rewrite select_user_conversations_spec, select_access_member. Qed.

Lemma members_join (sid room r : string) (w : world) :
  members (join sid room w) r =
    if decide (room = r) then {[sid]} ∪ members w r else members w r.
Proof.
  unfold members, join. destruct w; cbn.
  destruct (decide (room = r)) as [->|Hne].
  - by rewrite lookup_insert_eq.
  - by rewrite lookup_insert_ne.
Qed.

Lemma members_leave (sid room r : string) (w : world) :
  members (leave sid room w) r =
    if decide (room = r) then members w r ∖ {[sid]} else members w r.
Proof.
  unfold members, leave. destruct w; cbn.
  destruct (decide (room = r)) as [->|Hne].
  - by rewrite lookup_insert_eq.
  - by rewrite lookup_insert_ne.
Qed.

Lemma members_join_all (sid : string) (cs : list Z) (w : world) (r : string) (x : string) :
  x ∈ members (foldl (λ w c, join sid (conversation_room c) w) w cs) r ↔
  x ∈ members w r ∨ (x = sid ∧ ∃ c, c ∈ cs ∧ r = conversation_room c).
Proof.
  revert w. induction cs as [|c cs IH]; intros w.
  - cbn. split; [by left|]. intros [?|(_ & c & Hc & _)]; [done|].
    by apply not_elem_of_nil in Hc.
  - cbn [foldl]. rewrite IH, members_join. split.
    + intros [Hx|(-> & c' & Hc' & ->)].
      * destruct (decide (conversation_room c = r)) as [<-|Hne]; [|by left].
        apply elem_of_union in Hx as [Hx|Hx]; [|by left].
        apply elem_of_singleton in Hx as ->. right. split; [done|].
        exists c. split; [by left|done].
      * right. split; [done|]. exists c'. split; [by right|done].
    + intros [Hx|(-> & c' & Hc' & ->)].
      * left. destruct (decide (conversation_room c = r)); [|done].
        apply elem_of_union. by right.
      * apply elem_of_cons in Hc' as [->|Hc'].
        -- left. rewrite decide_True by done. apply elem_of_union. left.
           by apply elem_of_singleton.
        -- right. split; [done|]. by exists c'.
Qed.

(** X15: a connection that has just been accepted is subscribed to the room
    of its own id, to the room of its user, and to the room of every
    conversation its user is a participant or group member of; it enters no
    other room, and no other connection changes rooms. *)
Theorem connection_subscribes_to_own_conversations
    (sid : string) (s : socket) (w : world) (r x : string) :
  x ∈ members (on_connection sid s w) r ↔
  x ∈ members w r ∨
  (x = sid ∧ (r = sid ∨ r = user_room (userId s) ∨
              ∃ c, member_of (store w) c (userId s) ∧ r = conversation_room c)).
Proof.
  unfold on_connection, joinUserConversations.
  rewrite members_join_all, members_join.
  match goal with |- context [broadcastUserStatus ?u ?st ?x] =>
    destruct (broadcast_only_logs u st x) as [l Hb] end.
  rewrite Hb.
  set (w1 := set_log _ _).
  assert (members w1 r = if decide (sid = r) then {[sid]} ∪ members w r else members w r)
    as Hm1.
  { subst w1. rewrite <- (members_join sid sid r (set_sockets (<[sid:=s]>) w)).
    unfold members. by destruct w. }
  assert (store (join sid (user_room (userId s)) w1)
          = update_status (store w) "online" (userId s)) as Hst
    by (subst w1; by destruct w).
  rewrite Hst, Hm1. clear Hb Hm1 Hst. clearbody w1.
  assert (∀ c, c ∈ select_user_conversations
                     (update_status (store w) "online" (userId s)) (userId s)
               ↔ member_of (store w) c (userId s)) as Hsel.
  { intros c. rewrite select_user_conversations_spec. done. }
  split.
  - intros [Hx|(-> & c & Hc & ->)].
    + destruct (decide (user_room (userId s) = r)) as [<-|_].
      * apply elem_of_union in Hx as [Hx|Hx].
        -- apply elem_of_singleton in Hx as ->. right. split; [done|]. right. by left.
        -- destruct (decide (sid = user_room (userId s))) as [->|_]; [|by left].
           apply elem_of_union in Hx as [Hx|Hx]; [|by left].
           apply elem_of_singleton in Hx as ->. right. split; [done|]. by left.
      * destruct (decide (sid = r)) as [<-|_]; [|by left].
        apply elem_of_union in Hx as [Hx|Hx]; [|by left].
        apply elem_of_singleton in Hx as ->. right. split; [done|]. by left.
    + right. split; [done|]. right. right. exists c. split; [by apply Hsel|done].
  - intros [Hx|(-> & [->|[->|(c & Hc & ->)]])].
    + left. destruct (decide (user_room (userId s) = r)).
      * apply elem_of_union. right. destruct (decide (sid = r)); [|done].
        apply elem_of_union. by right.
      * destruct (decide (sid = r)); [|done]. apply elem_of_union. by right.
    + left. destruct (decide (user_room (userId s) = sid)).
      * apply elem_of_union. left. by apply elem_of_singleton.
      * rewrite decide_True by done. apply elem_of_union. left. by apply elem_of_singleton.
    + left. rewrite decide_True by done. apply elem_of_union. left.
      by apply elem_of_singleton.
    + right. split; [done|]. exists c. split; [by apply Hsel|done].
Qed.


(** What a successful send delivers: the payload, once to every
    subscriber of the room. *)
Lemma send_delivers (sid : string) (s : socket) (data : send_data) (w : world)
    (conversationId : Z) (content : string) :
  sd_conversationId data = Some conversationId → conversationId ≠ 0 →
  sd_content data = Some content → content ≠ "" →
  member_of (store w) conversationId (userId s) →
  accepted s data conversationId content (store w) = true →
  ∃ md,
    deliveries (log (on_send_message sid s data w)) =
      deliveries (log w) ++
      ((λ r, (r, new_message md)) <$>
         elements (members w (conversation_room conversationId))).
Proof.
  intros Hid Hnz Hct Hne Hmem Hacc.
  destruct (send_accepted sid s data w conversationId content
              Hid Hnz Hct Hne Hmem Hacc) as [sender ->].
  eexists.
  match goal with |- deliveries (log ?x) = _ =>
    assert (log x = log w ++ [Emit (ToRoom (conversation_room conversationId))
                                (elements (members w (conversation_room conversationId)))
                                (new_message (payload_of sender data
                                   (row_of s data conversationId content (store w))))])
      as -> by (by destruct w) end.
  unfold deliveries. rewrite bind_app. f_equal. cbn. by rewrite app_nil_r.
Qed.

Section WithVerifier.
Variable jwt_verify : string → option (Z * string).



(** X18: after leave_conversation a connection gets nothing of the next
    message that a member sends to that conversation and the store
    accepts, even when its user is a member and even when it is the
    sender's own connection. *)
Theorem left_room_receives_nothing
    (x : string) (sid : string) (s : socket) (data : send_data) (w : world)
    (conversationId : Z) (content : string) :
  is_Some (sockets w !! x) →
  sd_conversationId data = Some conversationId → conversationId ≠ 0 →
  sd_content data = Some content → content ≠ "" →
  member_of (store w) conversationId (userId s) →
  accepted s data conversationId content (store w) = true →
  ∃ new,
    deliveries (log (on_send_message sid s data
                       (step jwt_verify w (LeaveConversation x conversationId)))) =
      deliveries (log w) ++ new ∧
    ∀ e, (x, e) ∉ new.
Proof.
  intros [sx Hx] Hid Hnz Hct Hne Hmem Hacc.
  cbn [step]. unfold with_socket. rewrite Hx.
  set (w1 := leave x (conversation_room conversationId) w).
  assert (store w1 = store w) as Hst by (by destruct w).
  assert (log w1 = log w) as Hlog by (by destruct w).
  destruct (send_delivers sid s data w1 conversationId content) as [md Hd];
    try done; try (by rewrite Hst).
  eexists. rewrite Hd, Hlog. split; [done|].
  intros e He. apply list_elem_of_fmap in He as (y & [= <- _] & Hy).
  apply elem_of_elements in Hy. subst w1.
  rewrite members_leave, decide_True in Hy by done.
  apply elem_of_difference in Hy as [_ Hy]. apply Hy. by apply elem_of_singleton.
Qed.

End WithVerifier.
End RoomFacts.

(** ** Failures inside the handlers *)

Module HandlerFacts.
Import Attempts Store Realtime Notions Facts Frames Queries Router Receipts.

(** X19: when the INSERT of a member's complete message runs and the row
    breaks a constraint of the table (the message replied to does not
    exist, the sender's user row is gone, the id drawn is taken), no row is
    persisted, nothing is fanned out and the sender alone gets the 'Failed
    to send message' error; the only trace in the store is the value drawn
    from the sequence of message ids, which is not given back. *)
Theorem refused_insert_reports_failure
    (sid : string) (s : socket) (data : send_data) (w : world)
    (conversationId : Z) (content : string) :
  sd_conversationId data = Some conversationId → conversationId ≠ 0 →
  sd_content data = Some content → content ≠ "" →
  member_of (store w) conversationId (userId s) →
  insert_runs (store w) conversationId (userId s) content
    (default "text" (sd_messageType data)) (sd_replyTo data) = true →
  constraints_hold (store w) (row_of s data conversationId content (store w)) = false →
  on_send_message sid s data w =
    emit (ToSocket sid) (error failed_message) (set_store nextval w).
Proof.
  intros Hid Hnz Hct Hne Hmem Hruns Hbad.
  unfold on_send_message, handleSendMessage. rewrite Hid, Hct.
  rewrite !bool_decide_eq_false_2 by done. cbn [orb].
  unfold h_bind at 1. unfold try_query at 1.
  assert (int4 conversationId && int4 (userId s) = true) as Hr.
  { unfold insert_runs in Hruns.
    repeat match type of Hruns with
           | (_ && _ = true) => apply andb_true_iff in Hruns as [Hruns ?]
           end.
    by apply andb_true_iff. }
  unfold access_check. rewrite Hr.
  apply select_access_member in Hmem.
  destruct (select_access (store w) conversationId (userId s)) as [|x xs] eqn:Hsel;
    [done|]. cbn [length]. rewrite bool_decide_eq_false_2 by done.
  unfold h_bind at 1. unfold execute, insert_message.
  unfold row_of in Hbad. rewrite Hruns, Hbad.
  by destruct w.
Qed.

(** The loop stops at the first id the store refuses. *)
Lemma for_each_stops (u : Z) (pre : list Z) (bad : Z) (post : list Z) (w : world) :
  user_exists (store w) u = true →
  Forall (λ m, message_exists (store w) m = true) pre →
  message_exists (store w) bad = false →
  for_each (λ messageId,
              statement (λ d, (λ d', (d', ())) <$> insert_read d messageId u))
    (pre ++ bad :: post) w
  = (None, set_store (λ _, mark_all u (store w) pre) w).
Proof.
  revert w. induction pre as [|m pre IH]; intros w Hu Hall Hbad.
  - cbn [app for_each]. unfold h_bind, statement, insert_read.
    rewrite Hbad. cbn. by destruct w.
  - apply Forall_cons in Hall as [Hm Hall].
    cbn [app for_each]. unfold h_bind at 1. unfold statement at 1.
    rewrite (insert_read_accepts _ _ _ Hu Hm). cbn [fmap option_fmap option_map].
    destruct (mark_read_frame u (store w) m) as (Husers & Hmsgs & _).
    rewrite IH.
    + rewrite set_store_set_store. by destruct w.
    + replace (store (set_store (λ _, mark_read u (store w) m) w))
        with (mark_read u (store w) m) by (by destruct w).
      unfold user_exists in *. by rewrite Husers.
    + replace (store (set_store (λ _, mark_read u (store w) m) w))
        with (mark_read u (store w) m) by (by destruct w).
      unfold message_exists in *. by rewrite Hmsgs.
    + replace (store (set_store (λ _, mark_read u (store w) m) w))
        with (mark_read u (store w) m) by (by destruct w).
      unfold message_exists in *. by rewrite Hmsgs.
Qed.

(** X20: marking is not all-or-nothing.  When the list holds an id that is
    no stored message, the ids before it are marked, the ids after it are
    not even tried, and no messages_read event is emitted. *)
Theorem marking_stops_at_unknown_id
    (sid : string) (s : socket) (data : read_data) (w : world)
    (conversationId : Z) (pre : list Z) (bad : Z) (post : list Z) :
  rd_conversationId data = Some conversationId → conversationId ≠ 0 →
  rd_messageIds data = Some (pre ++ bad :: post) →
  user_exists (store w) (userId s) = true →
  Forall (λ m, message_exists (store w) m = true) pre →
  message_exists (store w) bad = false →
  on_mark_messages_read sid s data w
    = set_store (λ _, mark_all (userId s) (store w) pre) w.
Proof.
  intros Hid Hnz Hids Hu Hall Hbad.
  unfold on_mark_messages_read, handleMarkMessagesRead. rewrite Hid, Hids.
  rewrite bool_decide_eq_false_2 by done.
  unfold h_bind. by rewrite (for_each_stops _ _ _ _ _ Hu Hall Hbad).
Qed.

End HandlerFacts.

(** ** Replacement, closing and persisted status *)

Module RegistryFacts.
Import Attempts Store Realtime Notions Facts Frames Limiter Admission Sequential
  Steps SessionFacts RoomFacts.




Lemma on_connection_log (sid : string) (s : socket) (w : world) :
  ∃ l, log (on_connection sid s w) = log w ++ l.
Proof.
  unfold on_connection, joinUserConversations.
  match goal with |- context [foldl ?f ?x ?l] =>
    assert (Hf : ∀ l' x', log (foldl f x' l') = log x')
  end.
  { induction l' as [|c l' IH]; intros x'; [done|].
    cbn [foldl]. rewrite IH. by destruct x'. }
  rewrite Hf.
  match goal with |- context [broadcastUserStatus ?u ?st ?x] =>
    destruct (broadcast_only_logs u st x) as [l ->] end.
  exists l. by destruct w.
Qed.

Lemma session_query_grows (d d' : database) (u : Z) (tok : string) :
  store_grows d d' →
  select_user_session d' u tok ≠ [] ↔ select_user_session d u tok ≠ [].
Proof.
  intros (_ & _ & _ & Hse & Hids & _ & Hnow & _).
  by rewrite !select_user_session_spec, Hse, Hids, Hnow.
Qed.

Section WithVerifier.
Variable jwt_verify : string → option (Z * string).

(** X9: when a user who is connected as [old] connects again and the new
    attempt is answered before anything else happens, the new connection
    takes the user's place in the registry, [old] is closed by the server
    and both of its entries are gone: the last connection wins. *)
Theorem later_connection_replaces_earlier
    (sid tok old : string) (now : Z) (w : world) (u : Z) (name : string) (so : socket) :
  credential jwt_verify (Some tok) = Some (u, name) →
  (rate_limit (connectionAttempts w) u now).1 = Pass →
  select_user_session (store w) u tok ≠ [] →
  connectedUsers w !! u = Some old → old ≠ "" → old ≠ sid →
  sockets w !! old = Some so →
  let w' := run jwt_verify w [Handshake sid (Some tok) now; SessionReply sid] in
  connectedUsers w' !! u = Some sid ∧
  userSockets w' !! sid = Some (u, name) ∧
  sockets w' !! sid = Some (Socket u name) ∧
  userSockets w' !! old = None ∧
  sockets w' !! old = None ∧
  ForcedClose old ∈ log w'.
Proof.
  intros Hc Hp Hsess Hold Hne Hsid Hso. cbn zeta. unfold run. cbn [foldl step].
  pose proof (authenticate_awaits jwt_verify sid tok now w u name Hc Hp) as Haw.
  destruct (authenticate_frame jwt_verify sid (Some tok) now w) as [_ Hg].
  rewrite (session_reply_awaited _ _ _ _ _ Haw).
  rewrite bool_decide_eq_false_2.
  2:{ intros Hl. apply length_zero_iff_nil in Hl.
      by apply (session_query_grows _ _ u tok Hg). }
  cbn [snd].
  rewrite (authenticate_pass _ _ _ _ _ _ _ Hc Hp) in *.
  set (w0 := set_connectionAttempts _ w) in *.
  destruct (evict_existing_evicts jwt_verify sid old u w0) as (H1 & H2 & H3 & H4);
    [by destruct w | done | done |].
  cbn zeta in *. set (w1 := evict_existing sid u w0) in *.
  assert (ForcedClose old ∈ log w1) as H5.
  { apply H4. subst w0. destruct w; cbn in *. by rewrite Hso. }
  clear H4 Haw Hg. clearbody w1.
  set (w2 := set_awaiting (delete sid) (set_awaiting (<[sid:=(u, name, tok)]>) w1)).
  destruct (on_connection_fields sid (Socket u name) w2) as (-> & -> & _).
  destruct (on_connection_sockets sid (Socket u name) w2) as (-> & _).
  destruct (on_connection_log sid (Socket u name) w2) as [l ->].
  cbn [userId username].
  split_and!.
  - apply lookup_insert_eq.
  - apply lookup_insert_eq.
  - apply lookup_insert_eq.
  - rewrite lookup_insert_ne by done. subst w2. by destruct w1.
  - rewrite lookup_insert_ne by done. subst w2. by destruct w1.
  - apply elem_of_app. left. subst w2. by destruct w1.
Qed.

End WithVerifier.



End RegistryFacts.

(** ** The added properties at concrete inputs *)

Module Instances.
Import Attempts Store Realtime Notions Facts Auth Frames Limiter Admission Sequential
  Queries Router Receipts LimiterFacts Steps SessionFacts PresenceFacts RoomFacts
  HandlerFacts RegistryFacts.

(** A record blocked long ago is dropped by the clean-up at 130000; the
    attempt at 131000 passes either way. *)
Lemma cleanup_is_transparent_witness :
  (rate_limit (cleanup {[ 1 := Attempt 4 100000 true ]} 130000) 1 131000).1 = Pass ∧
  (rate_limit (cleanup {[ 1 := Attempt 4 100000 true ]} 130000) 1 131000).1
    = (rate_limit {[ 1 := Attempt 4 100000 true ]} 1 131000).1.
Proof.
  split; [evaluate|].
  destruct (cleanup_is_transparent {[ 1 := Attempt 4 100000 true ]} 1 130000 131000)
    as [H _]; [lia|exact H].
Defined.

Lemma other_user_unaffected_witness :
  (rate_limit (rate_limit {[ 2 := Attempt 3 100000 false ]} 1 100500).2 2 101000).1
    = (rate_limit {[ 2 := Attempt 3 100000 false ]} 2 101000).1.
Proof.
  destruct (other_user_unaffected {[ 2 := Attempt 3 100000 false ]} 1 2 100500 101000)
    as [H _]; [done|exact H].
Defined.

(** carol logs in at store time 500 with a token that expires at 1000. *)
Lemma login_token_witness :
  select_user_session
    (default Demo.db (login_statements Demo.db 3 "carol-token" 1000)) 3 "carol-token" ≠ [].
Proof.
  apply (login_token_passes_session_check Demo.db _ 3 "carol-token" 1000).
  - evaluate.
  - evaluate.
Defined.

(** alice connects twice, sends, and the second connection closes. *)
Lemma sequential_requests_witness :
  single_session
    (run Demo.verify (initial Demo.db)
       ([Connect "s1" Demo.alice 100000; Connect "s2" Demo.alice 101000;
         Send "s2" (SendData (Some 42) (Some "hi") None None); Close "s2"]
        ≫= expand)).
Proof.
  apply sequential_requests_keep_single_session.
  repeat (apply Forall_cons; split; [done|]). apply Forall_nil. exact I.
Defined.

Lemma later_connection_witness :
  let w := run Demo.verify (initial Demo.db)
             [Handshake "s1" Demo.alice 100000; SessionReply "s1"] in
  connectedUsers w !! 1 = Some "s1" ∧
  connectedUsers
    (run Demo.verify w [Handshake "s2" Demo.alice 101000; SessionReply "s2"]) !! 1
    = Some "s2" ∧
  sockets
    (run Demo.verify w [Handshake "s2" Demo.alice 101000; SessionReply "s2"]) !! "s1"
    = None.
Proof.
  cbv zeta. split; [evaluate|].
  destruct (later_connection_replaces_earlier Demo.verify "s2" "alice-token" "s1" 101000
              (run Demo.verify (initial Demo.db)
                 [Handshake "s1" Demo.alice 100000; SessionReply "s1"])
              1 "alice" (Socket 1 "alice"))
    as (H1 & _ & _ & _ & H2 & _).
  - evaluate.
  - evaluate.
  - vm_compute. discriminate.
  - evaluate.
  - done.
  - done.
  - evaluate.
  - split; [exact H1|exact H2].
Defined.




(** bob leaves the room of conversation 42 and misses alice's message. *)
Lemma left_room_witness :
  ∃ new,
    deliveries (log (on_send_message "a1" (Socket 1 "alice")
                       (SendData (Some 42) (Some "hi") None None)
                       (step Demo.verify Demo.three_in_room (LeaveConversation "b1" 42)))) =
      deliveries (log Demo.three_in_room) ++ new ∧
    ∀ e, ("b1", e) ∉ new.
Proof.
  apply (left_room_receives_nothing Demo.verify "b1" "a1" (Socket 1 "alice")
           (SendData (Some 42) (Some "hi") None None) Demo.three_in_room 42 "hi").
  - eexists. evaluate.
  - reflexivity.
  - done.
  - reflexivity.
  - done.
  - apply select_access_member. by vm_compute.
  - evaluate.
Defined.

(** alice replies to message 999, which does not exist: the sequence
    moves from 8 to 9 and no message is stored. *)
Lemma refused_insert_witness :
  on_send_message "a1" (Socket 1 "alice")
    (SendData (Some 42) (Some "hi") None (Some 999)) Demo.three_in_room
  = emit (ToSocket "a1") (error failed_message) (set_store nextval Demo.three_in_room) ∧
  messages_id_seq (store (set_store nextval Demo.three_in_room)) = 9 ∧
  messages (store (set_store nextval Demo.three_in_room))
    = messages (store Demo.three_in_room).
Proof.
  split; [|split; evaluate].
  apply (refused_insert_reports_failure "a1" (Socket 1 "alice")
           (SendData (Some 42) (Some "hi") None (Some 999)) Demo.three_in_room 42 "hi").
  - reflexivity.
  - done.
  - reflexivity.
  - done.
  - apply select_access_member. by vm_compute.
  - evaluate.
  - evaluate.
Defined.

(** bob marks 7, then the unknown 999, then 7 again. *)
Lemma marking_stops_witness :
  on_mark_messages_read "b1" (Socket 2 "bob")
    (ReadData (Some 42) (Some [7; 999; 7])) Demo.three_in_room
  = set_store (λ _, mark_all 2 (store Demo.three_in_room) [7]) Demo.three_in_room.
Proof.
  apply (marking_stops_at_unknown_id "b1" (Socket 2 "bob")
           (ReadData (Some 42) (Some [7; 999; 7])) Demo.three_in_room 42 [7] 999 [7]).
  - reflexivity.
  - done.
  - reflexivity.
  - evaluate.
  - apply Forall_cons. split; [evaluate|apply Forall_nil; exact I].
  - evaluate.
Defined.

End Instances.
